(** * Overlay lifecycle of the modal component, and the label directive

    A shallow embedding of [Modal], [ModalController] (components/modal),
    of the module-load animation registrations of the older modal module,
    and of [Label] (components/label).

    JavaScript values are first-order ([val]); objects live in a heap
    ([gmap loc obj]) so that the aliasing between the caller's [data] and
    [opts] arguments and the constructed view instance is visible.  Code
    runs in a small monad [M] with three outcomes: normal completion, a
    thrown error, and a call to the external presenter ([App.present]),
    which the embedding does not interpret but hands to a handler. *)

From stdpp Require Import gmap strings list fin_maps.

Local Open Scope string_scope.

(** ** Values and objects *)

Definition loc := positive.
Bind Scope positive_scope with loc.

Inductive val :=
  | VUndef
  | VNull
  | VBool (b : bool)
  | VNum (n : Z)
  | VStr (s : string)
  | VRef (l : loc)
  | VFun (name : string).

#[global] Instance val_eq_dec : EqDecision val.
Proof. solve_decision. Defined.

(** Classes of heap objects: what [instanceof] and method dispatch see. *)
Inductive class := PlainObject | ModalInst | AppInst | NavInst | ConfigInst.

#[global] Instance class_eq_dec : EqDecision class.
Proof. solve_decision. Defined.

Record obj := Obj { cls : class; props : gmap string val }.

Abbreviation heap := (gmap loc obj).

(** [!!v] of JavaScript is [VBool (truthy v)]. *)
Definition truthy (v : val) : bool :=
  match v with
  | VUndef | VNull => false
  | VBool b => b
  | VNum n => negb (n =? 0)%Z
  | VStr s => negb (String.eqb s "")
  | VRef _ | VFun _ => true
  end.

(** [a === b] on the values of the model. *)
Definition strict_eq (a b : val) : bool := bool_decide (a = b).

(** Modelled from the spec: the presence check [isPresent] of util/util,
    which is imported by the modal module but is not among the sources;
    the spec calls it "a presence check": a value is present unless it is
    [undefined] or [null]. *)
Definition isPresent (v : val) : bool :=
  match v with
  | VUndef | VNull => false
  | _ => true
  end.

(** [AppPortal] of app/app-root (the overlay classification tags). *)
Inductive AppPortal := DEFAULT | MODAL | LOADING | TOAST.

(** Modelled from the spec: the component class [ModalCmp] of
    modal-component, a constant class reference. *)
Definition ModalCmp : val := VFun "ModalCmp".

(** ** The monad *)

Inductive error := TypeError | Unsupported.

(** A completion signal (promise), identified with its settlement. *)
Inductive signal := Resolved (v : val) | Rejected (reason : val).

(** Calls that leave the modelled code. *)
Inductive call := AppPresent (app view navOptions : val) (portal : AppPortal).

Inductive outcome (A : Type) :=
  | Done (a : A) (h : heap)
  | Threw (e : error) (h : heap)
  | Invoke (c : call) (h : heap) (k : signal → heap → outcome A).
Arguments Done {A} a h.
Arguments Threw {A} e h.
Arguments Invoke {A} c h k.

Definition M (A : Type) : Type := heap → outcome A.

Fixpoint outcome_bind {A B} (f : A → M B) (o : outcome A) : outcome B :=
  match o with
  | Done a h => f a h
  | Threw e h => Threw e h
  | Invoke c h k => Invoke c h (λ r h', outcome_bind f (k r h'))
  end.

#[global] Instance M_ret : MRet M := λ A a h, Done a h.
#[global] Instance M_bind : MBind M := λ A B f m h, outcome_bind f (m h).

Definition invoke (c : call) : M signal := λ h, Invoke c h (λ r h', Done r h').

(** ** Heap primitives *)

(** [new C()] / [{}]: a fresh object. *)
Definition alloc (o : obj) : M val :=
  λ h, let l := fresh (dom h) in Done (VRef l) (<[l := o]> h).

(** [v.name].  Reading a property of [undefined] or [null] throws; a
    property that an object does not have reads as [undefined].  The
    primitives have none of the properties read in this development. *)
Definition getprop (v : val) (name : string) : M val :=
  λ h, match v with
       | VUndef | VNull => Threw TypeError h
       | VRef l => match h !! l with
                   | Some o => Done (default VUndef (props o !! name)) h
                   | None => Threw Unsupported h
                   end
       | _ => Done VUndef h
       end.

(** [v.name = x] in strict-mode code (class bodies are strict): writing a
    property of [undefined], [null] or a primitive throws.  The properties
    of function objects are not tracked. *)
Definition setprop (v : val) (name : string) (x : val) : M unit :=
  λ h, match v with
       | VRef l => match h !! l with
                   | Some o => Done () (<[l := Obj (cls o) (<[name := x]> (props o))]> h)
                   | None => Threw Unsupported h
                   end
       | VFun _ => Threw Unsupported h
       | _ => Threw TypeError h
       end.

(** A parameter with default [{}]: the default is taken exactly when the
    argument is [undefined]. *)
Definition default_object (v : val) : M val :=
  match v with
  | VUndef => alloc (Obj PlainObject ∅)
  | _ => mret v
  end.

(** ** components/modal: [Modal] and [ModalController] *)

(** Modelled from the spec: the constructor of the base class
    [ViewController] (navigation/view-controller, not among the sources).
    The view instance "holds the component reference and the data
    payload"; [_nav] is left unset until the view is attached to a
    navigation stack. *)
Definition ViewController_new (c : class) (component data rootCssClass : val) : M val :=
  this ← alloc (Obj c ∅);
  setprop this "component" component;;
  setprop this "data" data;;
  mret this.

(** [opts.f = isPresent(opts.f) ? !!opts.f : true] *)
Definition resolve_flag (opts : val) (f : string) : M unit :=
  x ← getprop opts f;
  setprop opts f (if isPresent x then VBool (truthy x) else VBool true).

(** [new Modal(app, component, data, opts = {})] *)
Definition Modal_new (app component data opts : val) : M val :=
  opts ← default_object opts;
  data ← (if truthy data then mret data else alloc (Obj PlainObject ∅));
  setprop data "component" component;;
  resolve_flag opts "showBackdrop";;
  resolve_flag opts "enableBackdropDismiss";;
  setprop data "opts" opts;;
  this ← ViewController_new ModalInst ModalCmp data VNull;
  setprop this "_app" app;;
  ea ← getprop opts "enterAnimation";
  setprop this "_enterAnimation" ea;;
  la ← getprop opts "leaveAnimation";
  setprop this "_leaveAnimation" la;;
  setprop this "isOverlay" (VBool true);;
  mret this.

Record ModalController := { _app : val }.

(** [create(component, data = {}, opts = {})] *)
Definition create (ctrl : ModalController) (component data opts : val) : M val :=
  data ← default_object data;
  opts ← default_object opts;
  Modal_new (_app ctrl) component data opts.

(** Modelled from the spec: [Config.get] of config/config (not among the
    sources), the "ambient lookup [config.get(key) -> animationName |
    undefined]": the settings of a configuration object are its
    properties.  Calling [get] on anything else is a [TypeError]. *)
Definition Config_get (cfg : val) (key : string) : M val :=
  λ h, match cfg with
       | VRef l => match h !! l with
                   | Some o => if decide (cls o = ConfigInst)
                               then Done (default VUndef (props o !! key)) h
                               else Threw TypeError h
                   | None => Threw Unsupported h
                   end
       | _ => Threw TypeError h
       end.

(** [return this._nav && this._nav.config.get(key)] *)
Definition nav_config_get (this : val) (key : string) : M val :=
  nav ← getprop this "_nav";
  if truthy nav then
    cfg ← getprop nav "config";
    Config_get cfg key
  else mret nav.

(** [getTransitionName(direction: string): string] *)
Definition getTransitionName (this : val) (direction : string) : M val :=
  if String.eqb direction "back" then
    la ← getprop this "_leaveAnimation";
    if truthy la then mret la else nav_config_get this "modalLeave"
  else
    ea ← getprop this "_enterAnimation";
    if truthy ea then mret ea else nav_config_get this "modalEnter".

(** [app.present(view, navOptions, portal)]: the external presenter.  The
    call leaves the modelled code when [app] is an [App] object. *)
Definition App_present (app view navOptions : val) (portal : AppPortal) : M signal :=
  λ h, match app with
       | VRef l => match h !! l with
                   | Some o => if decide (cls o = AppInst)
                               then invoke (AppPresent app view navOptions portal) h
                               else Threw TypeError h
                   | None => Threw Unsupported h
                   end
       | _ => Threw TypeError h
       end.

(** [present(navOptions: NavOptions = {})] *)
Definition present (this navOptions : val) : M signal :=
  navOptions ← default_object navOptions;
  app ← getprop this "_app";
  App_present app this navOptions MODAL.

(** ** Running a program against a presenter *)

Inductive result (A : Type) := Ok (a : A) | Err (e : error).
Arguments Ok {A} a.
Arguments Err {A} e.

(** The host application: how it answers a call, and what it does to the
    heap meanwhile. *)
Definition presenter := call → heap → result signal * heap.

(** The result, the final heap, and the calls made, in order. *)
Fixpoint run {A} (P : presenter) (o : outcome A) : result A * heap * list call :=
  match o with
  | Done a h => (Ok a, h, [])
  | Threw e h => (Err e, h, [])
  | Invoke c h k =>
      match P c h with
      | (Ok r, h') => let '(x, h'', cs) := run P (k r h') in (x, h'', c :: cs)
      | (Err e, h') => (Err e, h', [c])
      end
  end.

(** A present call is rejected when it throws or its signal is rejected. *)
Definition rejected (r : result signal) : bool :=
  match r with
  | Ok (Resolved _) => false
  | Ok (Rejected _) | Err _ => true
  end.

(** ** Reading the heap *)

(** [v.name] as a total function, for statements: [undefined] where the
    read is not defined. *)
Definition field (h : heap) (v : val) (name : string) : val :=
  match v with
  | VRef l => match h !! l with
              | Some o => default VUndef (props o !! name)
              | None => VUndef
              end
  | _ => VUndef
  end.

(** The property mapping of the object [v] refers to. *)
Definition mapping (h : heap) (v : val) : option (gmap string val) :=
  match v with
  | VRef l => props <$> h !! l
  | _ => None
  end.

(** The data payload and the resolved options of a view instance. *)
Definition view_data (h : heap) (m : val) : val := field h m "data".
Definition view_opts (h : heap) (m : val) : val := field h (view_data h m) "opts".

(** ** The animation registry *)

(** Modelled from the spec: [Animation.register] of animations/animation
    (not among the sources; the modal module only calls it): "stores
    factory under name, overwriting any prior registration for that name". *)
Definition Animation_register (name : string) (factory : val)
    (reg : gmap string val) : gmap string val :=
  <[name := factory]> reg.

(** Modelled from the spec: the lookup of a registered name. *)
Definition Animation_lookup (name : string) (reg : gmap string val) : option val :=
  reg !! name.

(** The two registrations the older modal module performs when loaded. *)
Definition modal_module_load (reg : gmap string val) : gmap string val :=
  Animation_register "modal-slide-out" (VFun "ModalSlideOut")
    (Animation_register "modal-slide-in" (VFun "ModalSlideIn") reg).

(** A run of registrations, oldest first. *)
Definition register_all (rs : list (string * val)) (reg : gmap string val)
    : gmap string val :=
  foldl (λ r p, Animation_register p.1 p.2 r) reg rs.

(** ** The lifecycle of the spec *)

(** Modelled from the spec: "State machine for a single overlay instance:
    created → presenting → presented → dismissing → dismissed". *)
Inductive phase := created | presenting | presented | dismissing | dismissed.

Inductive event := EvPresent | EvEntered | EvDismiss | EvLeft.

Definition spec_step (p : phase) (e : event) : option phase :=
  match p, e with
  | created, EvPresent => Some presenting
  | presenting, EvEntered => Some presented
  | presented, EvDismiss => Some dismissing
  | dismissing, EvLeft => Some dismissed
  | _, _ => None
  end.

Fixpoint spec_phase_from (p : phase) (es : list event) : option phase :=
  match es with
  | [] => Some p
  | e :: es' => match spec_step p e with
                | Some p' => spec_phase_from p' es'
                | None => None
                end
  end.

(** ** components/label *)

Record Label := { type : val; _id : val; element : gmap string val }.

(** The constructor: the nested conditional of [this.type = ...] over the
    four attribute bindings (a string, or [null] for an absent attribute).
    The [config], [elementRef] and [renderer] arguments only reach the base
    class [Ion], which is not among the sources, as are the [color] and
    [mode] setters. *)
Definition Label_new (isFloating isStacked isFixed isInset : val) : Label :=
  {| type := if strict_eq isFloating (VStr "") then VStr "floating"
             else if strict_eq isStacked (VStr "") then VStr "stacked"
             else if strict_eq isFixed (VStr "") then VStr "fixed"
             else if strict_eq isInset (VStr "") then VStr "inset"
             else VNull;
     _id := VUndef;
     element := ∅ |}.

(** [set id(val)]: stores the id and, when it is truthy, sets the element
    attribute. *)
Definition Label_set_id (v : val) (l : Label) : Label :=
  {| type := type l;
     _id := v;
     element := if truthy v then <["id" := v]> (element l) else element l |}.

(** [get id()] *)
Definition Label_id (l : Label) : val := _id l.

(** The precedence rule in words: the first of the four attributes, in the
    order given, that is bound to the empty string. *)
Definition first_empty_attribute (attrs : list (string * val)) : val :=
  match List.find (λ p, strict_eq p.2 (VStr "")) attrs with
  | Some p => VStr p.1
  | None => VNull
  end.

(** * Notions used in the statements *)

(** The heap after [l.n = x], as a total function. *)
Definition upd (l : loc) (n : string) (x : val) (h : heap) : heap :=
  match h !! l with
  | Some o => <[l := Obj (cls o) (<[n := x]> (props o))]> h
  | None => h
  end.

(** The value [isPresent(x) ? !!x : true]. *)
Definition flag_value (x : val) : val :=
  if isPresent x then VBool (truthy x) else VBool true.

(** The heap once the constructor has written the caller's two objects
    (everything before [super]). *)
Definition args_heap (component : val) (ld lo : loc) (h : heap) : heap :=
  let h1 := upd ld "component" component h in
  let h2 := upd lo "showBackdrop" (flag_value (field h1 (VRef lo) "showBackdrop")) h1 in
  let h3 := upd lo "enableBackdropDismiss"
              (flag_value (field h2 (VRef lo) "enableBackdropDismiss")) h2 in
  upd ld "opts" (VRef lo) h3.

(** The properties of the new instance. *)
Definition instance_props (app : val) (ld lo : loc) (h : heap) : gmap string val :=
  <["isOverlay" := VBool true]>
  (<["_leaveAnimation" := field h (VRef lo) "leaveAnimation"]>
  (<["_enterAnimation" := field h (VRef lo) "enterAnimation"]>
  (<["_app" := app]>
  (<["data" := VRef ld]>
  (<["component" := ModalCmp]> ∅))))).

(** [v] refers to an object of the heap. *)
Definition live (h : heap) (v : val) : bool :=
  match v with
  | VRef l => bool_decide (is_Some (h !! l))
  | _ => false
  end.

(** A [data] argument the constructor accepts: falsy (then replaced by a
    new object) or an object. *)
Definition data_arg (h : heap) (v : val) : bool := negb (truthy v) || live h v.

(** An [opts] argument: omitted, or an options object. *)
Definition opts_arg (h : heap) (v : val) : bool := bool_decide (v = VUndef) || live h v.

(** How the heap [h1] and the two objects [ld], [lo] the constructor works
    on relate to the caller's heap [h] and arguments. *)
Record prepared (h : heap) (data opts : val) (h1 : heap) (ld lo : loc) : Prop := {
  prep_old : ∀ l, is_Some (h !! l) → h1 !! l = h !! l;
  prep_dom : ∀ l, is_Some (h1 !! l) → is_Some (h !! l) ∨ l = ld ∨ l = lo;
  prep_data : (data = VRef ld ∧ is_Some (h !! ld))
              ∨ (truthy data = false ∧ h !! ld = None
                 ∧ h1 !! ld = Some (Obj PlainObject ∅));
  prep_opts : (opts = VRef lo ∧ is_Some (h !! lo))
              ∨ (opts = VUndef ∧ h !! lo = None
                 ∧ h1 !! lo = Some (Obj PlainObject ∅));
  prep_alias : ld = lo → data = opts ∧ live h data = true
}.

(** The options record [opts] has no field [f] (an omitted record has none). *)
Definition lacks (h : heap) (opts : val) (f : string) : bool :=
  match mapping h opts with
  | Some fields => bool_decide (fields !! f = None)
  | None => true
  end.

(** A sample heap: an [App] at 1, an options record with only an
    animation name at 2, one that turns both flags off at 3, and the data
    payload of the usage example at 4. *)
Definition sample_heap : heap :=
  <[4%positive := Obj PlainObject {[ "userId" := VNum 8675309 ]}]>
  (<[3%positive := Obj PlainObject
       (<["showBackdrop" := VBool false]> {[ "enableBackdropDismiss" := VBool false ]})]>
  (<[2%positive := Obj PlainObject {[ "enterAnimation" := VStr "my-fade-in" ]}]>
  {[ 1%positive := Obj AppInst ∅ ]})).

Definition sample_ctrl : ModalController := {| _app := VRef 1 |}.

(** The class of the object [v] refers to. *)
Definition class_of (h : heap) (v : val) : option class :=
  match v with
  | VRef l => cls <$> h !! l
  | _ => None
  end.

(** The transition name in the words of the spec: the explicit animation
    of the instance when it is set, else the ambient configuration value. *)
Definition spec_transition_name (explicit ambient : val) : val :=
  if isPresent explicit then explicit else ambient.

(** [sample_heap] with the application's configuration at 5, a navigation
    stack using it at 6, and at 7 a modal attached to that stack whose
    leave animation was given as the empty string. *)
Definition config_heap : heap :=
  <[6%positive := Obj NavInst {[ "config" := VRef 5 ]}]>
  (<[5%positive := Obj ConfigInst
       (<["modalEnter" := VStr "modal-slide-in"]> {[ "modalLeave" := VStr "modal-slide-out" ]})]>
  sample_heap).

Definition attached_heap : heap :=
  <[7%positive := Obj ModalInst
      (<["_app" := VRef 1]> (<["_leaveAnimation" := VStr ""]> {[ "_nav" := VRef 6 ]}))]>
  config_heap.

(** C3 as stated, for an instance [m] and the application's configuration
    object [cfg]. *)
Definition transition_claim (h : heap) (m : val) (d : string) (cfg : val) : Prop :=
  let back := String.eqb d "back" in
  getTransitionName m d h
  = Done (spec_transition_name
            (field h m (if back then "_leaveAnimation" else "_enterAnimation"))
            (field h cfg (if back then "modalLeave" else "modalEnter"))) h.

(** C4 as stated: nothing that existed before the call is changed by it. *)
Definition leaves_unchanged (h h' : heap) : Prop :=
  ∀ l, is_Some (h !! l) → h' !! l = h !! l.

(** The caller's payload [D]: the mapping of the [data] object, empty when
    [data] is omitted. *)
Definition payload (h : heap) (data : val) : gmap string val :=
  default ∅ (mapping h data).

(** [data] and [opts] are one and the same object. *)
Definition aliased (h : heap) (data opts : val) : bool :=
  bool_decide (data = opts) && live h data.

(** C5 as stated: the data mapping is [D] merged with the component
    reference under ['component']. *)
Definition spec_data_mapping (component : val) (D : gmap string val)
    : gmap string val :=
  <["component" := component]> D.

(** [sample_heap] with, at 8, a payload that uses the key ['opts'] itself. *)
Definition reserved_heap : heap :=
  <[8%positive := Obj PlainObject
      (<["userId" := VNum 8675309]> {[ "opts" := VNum 7 ]})]> sample_heap.

(** The navigation options [present] passes on: [n] itself, or a new empty
    object when [n] is omitted. *)
Definition passed_options (h : heap) (n : val) : val * heap :=
  match n with
  | VUndef => (VRef (fresh (dom h)), <[fresh (dom h) := Obj PlainObject ∅]> h)
  | _ => (n, h)
  end.

(** A modal instance of the heap whose [_app] is an [App]. *)
Definition presentable (h : heap) (m : val) : bool :=
  bool_decide (class_of h m = Some ModalInst)
  && bool_decide (class_of h (field h m "_app") = Some AppInst).

(** The presenter's request that [m.present(n)] amounts to. *)
Definition present_call (h : heap) (m n : val) : call :=
  AppPresent (field h m "_app") m (passed_options h n).1 MODAL.

(** A presenter that accepts every request and touches nothing. *)
Definition accept_all : presenter := λ c h, (Ok (Resolved VUndef), h).

(** C8 as stated, for a present call on an instance with history [es]. *)
Definition single_use_claim (P : presenter) (h : heap) (m n : val)
    (es : list event) : Prop :=
  (spec_phase_from created es = Some dismissed
   ∨ spec_phase_from created es = Some presenting) →
  rejected (run P (present m n h)).1.1 = true.

(** The [_nav] of [m] is unset, or a navigation stack with a configuration. *)
Definition nav_ok (h : heap) (m : val) : bool :=
  let nav := field h m "_nav" in
  negb (truthy nav)
  || (bool_decide (class_of h nav ≠ None)
      && bool_decide (class_of h (field h nav "config") = Some ConfigInst)).

(** The name is a string the registry resolves. *)
Definition registered (reg : gmap string val) (name : val) : bool :=
  match name with
  | VStr s => bool_decide (is_Some (Animation_lookup s reg))
  | _ => false
  end.

(** C9 as stated: when the transition name of the presentation is not
    registered, the present call is rejected. *)
Definition unregistered_rejected_claim (reg : gmap string val) (P : presenter)
    (h : heap) (m n : val) (d : string) : Prop :=
  ∀ name, getTransitionName m d h = Done name h →
          registered reg name = false →
          rejected (run P (present m n h)).1.1 = true.

(** A modal whose enter animation names nothing that was registered, and
    which is not attached to a navigation stack. *)
Definition unregistered_heap : heap :=
  <[9%positive := Obj ModalInst
      (<["_app" := VRef 1]> {[ "_enterAnimation" := VStr "no-such-animation" ]})]>
  config_heap.

(** ** Notions for the further properties *)

(** The properties the constructor gives a new instance, from what the
    caller passed. *)
Definition modal_fields (app : val) (ld : loc) (enter leave : val)
    : gmap string val :=
  <["isOverlay" := VBool true]>
  (<["_leaveAnimation" := leave]>
  (<["_enterAnimation" := enter]>
  (<["_app" := app]>
  (<["data" := VRef ld]>
  (<["component" := ModalCmp]> ∅))))).

(** What a completed [create] leaves: the new instance [m], the data
    object [ld] and the options object [lo] it holds, in the heap [h']. *)
Record create_post (ctrl : ModalController) (component data opts : val)
    (h : heap) (m ld lo : loc) (h' : heap) : Prop := {
  cp_new : h !! m = None;
  cp_m_ld : m ≠ ld;
  cp_m_lo : m ≠ lo;
  cp_data : (data = VRef ld ∧ is_Some (h !! ld))
            ∨ (truthy data = false ∧ h !! ld = None);
  cp_opts : (opts = VRef lo ∧ is_Some (h !! lo))
            ∨ (opts = VUndef ∧ h !! lo = None);
  cp_live : ∀ l, is_Some (h' !! l) ↔ is_Some (h !! l) ∨ l = m ∨ l = ld ∨ l = lo;
  cp_inst : h' !! m
            = Some (Obj ModalInst
                      (modal_fields (_app ctrl) ld
                         (field h opts "enterAnimation")
                         (field h opts "leaveAnimation")));
  cp_component : field h' (VRef ld) "component" = component;
  cp_optsref : field h' (VRef ld) "opts" = VRef lo;
  cp_showBackdrop :
    field h' (VRef lo) "showBackdrop" = flag_value (field h opts "showBackdrop");
  cp_enableBackdropDismiss :
    field h' (VRef lo) "enableBackdropDismiss"
    = flag_value (field h opts "enableBackdropDismiss");
  cp_frame : ∀ l n, l ≠ m →
             n ≠ "component" → n ≠ "opts" →
             n ≠ "showBackdrop" → n ≠ "enableBackdropDismiss" →
             field h' (VRef l) n = field h (VRef l) n;
  cp_other : ∀ l, l ≠ m → l ≠ ld → l ≠ lo → h' !! l = h !! l;
  cp_class : ∀ l, l ≠ m → is_Some (h !! l) →
             class_of h' (VRef l) = class_of h (VRef l);
  cp_exact : ∀ l n, l ≠ m →
             ¬ (l = ld ∧ (n = "component" ∨ n = "opts")) →
             ¬ (l = lo ∧ (n = "showBackdrop" ∨ n = "enableBackdropDismiss")) →
             field h' (VRef l) n = field h (VRef l) n;
  cp_new_data : h !! ld = None → class_of h' (VRef ld) = Some PlainObject;
  cp_new_opts : h !! lo = None → class_of h' (VRef lo) = Some PlainObject
}.

(** A primitive value: a boolean, a number or a string. *)
Definition primitive (v : val) : bool :=
  match v with
  | VBool _ | VNum _ | VStr _ => true
  | _ => false
  end.

(** [a] is no object at all: [undefined], [null] or a primitive. *)
Definition not_an_object (a : val) : bool :=
  match a with
  | VRef _ | VFun _ => false
  | _ => true
  end.

(** A heap with, at 7, a modal whose controller was given no [App]. *)
Definition appless_heap : heap :=
  <[7%positive := Obj ModalInst {[ "_app" := VUndef ]}]> sample_heap.

(** A run of assignments to [id], oldest first. *)
Definition Label_set_ids (vs : list val) (l : Label) : Label :=
  foldl (λ l v, Label_set_id v l) l vs.

(** The last truthy value of [vs], or [d] when there is none. *)
Definition last_truthy (vs : list val) (d : option val) : option val :=
  foldl (λ acc v, if truthy v then Some v else acc) d vs.

(** * Reasoning about the heap *)

Section heap_lemmas.
Implicit Types (h : heap) (l : loc) (n : string) (x v : val).

Lemma bind_Done {A B} (m : M A) (f : A → M B) h a h' :
  m h = Done a h' → (m ≫= f) h = f a h'.
Proof. unfold mbind, M_bind. by intros ->. Qed.

Lemma bind_Threw {A B} (m : M A) (f : A → M B) h e h' :
  m h = Threw e h' → (m ≫= f) h = Threw e h'.
Proof. unfold mbind, M_bind. by intros ->. Qed.

Lemma getprop_live h l n :
  is_Some (h !! l) → getprop (VRef l) n h = Done (field h (VRef l) n) h.
Proof. intros [o Ho]. unfold getprop, field. by rewrite Ho. Qed.

Lemma setprop_live h l n x :
  is_Some (h !! l) → setprop (VRef l) n x h = Done () (upd l n x h).
Proof. intros [o Ho]. unfold setprop, upd. by rewrite Ho. Qed.

Lemma upd_lookup h l n x l' :
  upd l n x h !! l' =
    if decide (l = l')
    then (λ o, Obj (cls o) (<[n := x]> (props o))) <$> h !! l'
    else h !! l'.
Proof.
  unfold upd. case_decide as Hl.
  - subst l'. destruct (h !! l) as [o|] eqn:Ho; [|by rewrite Ho].
    by rewrite lookup_insert_eq.
  - destruct (h !! l) as [o|]; [|done]. by rewrite lookup_insert_ne.
Qed.

Lemma upd_live h l n x l' : is_Some (upd l n x h !! l') ↔ is_Some (h !! l').
Proof.
  rewrite upd_lookup. case_decide; [|done]. by rewrite fmap_is_Some.
Qed.

Lemma dom_upd h l n x : dom (upd l n x h) = dom h.
Proof.
  apply set_eq. intros l'. by rewrite !elem_of_dom, upd_live.
Qed.

Lemma upd_cls h l n x l' : cls <$> upd l n x h !! l' = cls <$> h !! l'.
Proof.
  rewrite upd_lookup. case_decide; [|done]. by destruct (h !! l').
Qed.

Lemma field_upd_eq h l n x :
  is_Some (h !! l) → field (upd l n x h) (VRef l) n = x.
Proof.
  intros [o Ho]. unfold field. rewrite upd_lookup, decide_True, Ho by done.
  simpl. by rewrite lookup_insert_eq.
Qed.

Lemma field_upd_ne h l n x l' n' :
  l ≠ l' ∨ n ≠ n' → field (upd l n x h) (VRef l') n' = field h (VRef l') n'.
Proof.
  intros Hne. unfold field. rewrite upd_lookup. case_decide as Hl; [|done].
  subst l'. destruct (h !! l) as [o|]; [|done]. simpl.
  destruct Hne as [?|?]; [done|]. by rewrite lookup_insert_ne.
Qed.

Lemma mapping_upd_eq h l n x :
  mapping (upd l n x h) (VRef l) = insert n x <$> mapping h (VRef l).
Proof.
  unfold mapping. rewrite upd_lookup, decide_True by done.
  by destruct (h !! l).
Qed.

Lemma mapping_upd_ne h l n x l' :
  l ≠ l' → mapping (upd l n x h) (VRef l') = mapping h (VRef l').
Proof.
  intros Hne. unfold mapping. by rewrite upd_lookup, decide_False.
Qed.

Lemma alloc_fresh h o :
  alloc o h = Done (VRef (fresh (dom h))) (<[fresh (dom h) := o]> h)
  ∧ h !! fresh (dom h) = None.
Proof.
  split; [done|]. apply not_elem_of_dom, is_fresh.
Qed.

Lemma resolve_flag_live h l f :
  is_Some (h !! l) →
  resolve_flag (VRef l) f h
  = Done () (upd l f (flag_value (field h (VRef l) f)) h).
Proof.
  intros Hl. unfold resolve_flag.
  rewrite (bind_Done _ _ _ _ _ (getprop_live _ _ _ Hl)).
  by rewrite setprop_live.
Qed.
End heap_lemmas.

Lemma upd_insert (h : heap) l n x o :
  upd l n x (<[l := o]> h) = <[l := Obj (cls o) (<[n := x]> (props o))]> h.
Proof. unfold upd. by rewrite lookup_insert_eq, insert_insert_eq. Qed.

Lemma field_insert_ne (h : heap) l o l' n :
  l ≠ l' → field (<[l := o]> h) (VRef l') n = field h (VRef l') n.
Proof. intros Hne. unfold field. by rewrite lookup_insert_ne. Qed.

Lemma fresh_not_live (h : heap) l : is_Some (h !! l) → fresh (dom h) ≠ l.
Proof.
  intros Hl%elem_of_dom Heq. rewrite <- Heq in Hl. by apply (is_fresh (dom h)).
Qed.

Lemma ViewController_new_fresh c component data css (h : heap) :
  let m := fresh (dom h) in
  ViewController_new c component data css h
  = Done (VRef m) (<[m := Obj c (<["data" := data]> (<["component" := component]> ∅))]> h).
Proof.
  intros m. unfold ViewController_new.
  rewrite (bind_Done _ _ _ _ _ (proj1 (alloc_fresh h _))). fold m.
  erewrite bind_Done; [|apply setprop_live; by rewrite lookup_insert_eq].
  erewrite bind_Done; [|apply setprop_live; rewrite upd_live; by rewrite lookup_insert_eq].
  by rewrite !upd_insert.
Qed.

Lemma args_heap_live component ld lo (h : heap) l :
  is_Some (args_heap component ld lo h !! l) ↔ is_Some (h !! l).
Proof. unfold args_heap. by rewrite !upd_live. Qed.

Lemma Modal_new_live app component ld lo (h : heap) :
  is_Some (h !! ld) → is_Some (h !! lo) →
  let h4 := args_heap component ld lo h in
  let m := fresh (dom h4) in
  Modal_new app component (VRef ld) (VRef lo) h
  = Done (VRef m) (<[m := Obj ModalInst (instance_props app ld lo h4)]> h4).
Proof.
  intros Hd Ho h4 m. unfold Modal_new. simpl default_object. simpl truthy.
  cbv beta iota.
  erewrite bind_Done; [|reflexivity].
  erewrite bind_Done; [|reflexivity].
  erewrite bind_Done; [|by apply setprop_live].
  erewrite bind_Done; [|apply resolve_flag_live; by rewrite upd_live].
  erewrite bind_Done; [|apply resolve_flag_live; by rewrite !upd_live].
  erewrite bind_Done; [|apply setprop_live; by rewrite !upd_live].
  change (upd ld "opts" (VRef lo) _) with h4.
  assert (Hm : m ≠ lo) by (apply fresh_not_live; by apply args_heap_live).
  erewrite bind_Done; [|apply ViewController_new_fresh]. fold m.
  erewrite bind_Done; [|apply setprop_live; by rewrite lookup_insert_eq].
  rewrite upd_insert.
  erewrite bind_Done;
    [|apply getprop_live; rewrite lookup_insert_ne by done; by apply args_heap_live].
  rewrite field_insert_ne by done.
  erewrite bind_Done; [|apply setprop_live; by rewrite lookup_insert_eq].
  rewrite upd_insert.
  erewrite bind_Done;
    [|apply getprop_live; rewrite lookup_insert_ne by done; by apply args_heap_live].
  rewrite field_insert_ne by done.
  erewrite bind_Done; [|apply setprop_live; by rewrite lookup_insert_eq].
  rewrite upd_insert.
  erewrite bind_Done; [|apply setprop_live; by rewrite lookup_insert_eq].
  rewrite upd_insert. reflexivity.
Qed.

(** ** Well-formed arguments of [create] *)

Lemma live_ref h v : live h v = true → ∃ l, v = VRef l ∧ is_Some (h !! l).
Proof.
  destruct v; simpl; try done. intros H%bool_decide_eq_true. eauto.
Qed.

Lemma default_object_given v : v ≠ VUndef → default_object v = mret v.
Proof. by destruct v. Qed.

Lemma Modal_new_falsy_data app component data lo (h : heap) :
  truthy data = false →
  Modal_new app component data (VRef lo) h
  = Modal_new app component (VRef (fresh (dom h))) (VRef lo)
      (<[fresh (dom h) := Obj PlainObject ∅]> h).
Proof. intros Hf. unfold Modal_new. simpl default_object. by rewrite Hf. Qed.

Lemma prepared_live h data opts h1 ld lo :
  prepared h data opts h1 ld lo → is_Some (h1 !! ld) ∧ is_Some (h1 !! lo).
Proof.
  intros [Hold _ Hd Ho _]. split.
  - destruct Hd as [[_ Hl]|(_ & _ & ->)]; [|done]. by rewrite Hold.
  - destruct Ho as [[_ Hl]|(_ & _ & ->)]; [|done]. by rewrite Hold.
Qed.

Lemma prepared_both_given (h : heap) ld lo :
  is_Some (h !! ld) → is_Some (h !! lo) → prepared h (VRef ld) (VRef lo) h ld lo.
Proof.
  intros Hd Ho. split; auto.
  intros ->. split; [done|]. simpl. by apply bool_decide_eq_true.
Qed.

Lemma prepared_data_new (h : heap) data lo :
  truthy data = false → is_Some (h !! lo) →
  prepared h data (VRef lo) (<[fresh (dom h) := Obj PlainObject ∅]> h)
    (fresh (dom h)) lo.
Proof.
  intros Hf Ho. pose proof (fresh_not_live h lo Ho) as Hne.
  pose proof (proj2 (alloc_fresh h (Obj PlainObject ∅))) as Hnew.
  split.
  - intros l Hl. rewrite lookup_insert_ne; [done|]. by apply fresh_not_live.
  - intros l. destruct (decide (fresh (dom h) = l)) as [<-|?]; [auto|].
    rewrite lookup_insert_ne by done. auto.
  - right. by rewrite lookup_insert_eq.
  - auto.
  - done.
Qed.

Lemma prepared_opts_new (h : heap) ld :
  is_Some (h !! ld) →
  prepared h (VRef ld) VUndef (<[fresh (dom h) := Obj PlainObject ∅]> h)
    ld (fresh (dom h)).
Proof.
  intros Hd. pose proof (fresh_not_live h ld Hd) as Hne.
  pose proof (proj2 (alloc_fresh h (Obj PlainObject ∅))) as Hnew.
  split.
  - intros l Hl. rewrite lookup_insert_ne; [done|]. by apply fresh_not_live.
  - intros l. destruct (decide (fresh (dom h) = l)) as [<-|?]; [auto|].
    rewrite lookup_insert_ne by done. auto.
  - auto.
  - right. by rewrite lookup_insert_eq.
  - done.
Qed.

(** Two new objects, allocated in either order. *)
Lemma prepared_both_new (h : heap) data (swap : bool) :
  truthy data = false →
  let l1 := fresh (dom h) in
  let h' := <[l1 := Obj PlainObject ∅]> h in
  let l2 := fresh (dom h') in
  prepared h data VUndef (<[l2 := Obj PlainObject ∅]> h')
    (if swap then l2 else l1) (if swap then l1 else l2).
Proof.
  intros Hf l1 h' l2.
  pose proof (proj2 (alloc_fresh h (Obj PlainObject ∅))) as H1. fold l1 in H1.
  pose proof (proj2 (alloc_fresh h' (Obj PlainObject ∅))) as H2. fold l2 in H2.
  assert (Hne : l2 ≠ l1).
  { intros Heq. rewrite Heq in H2. unfold h' in H2.
    by rewrite lookup_insert_eq in H2. }
  assert (H2' : h !! l2 = None).
  { unfold h' in H2. by rewrite lookup_insert_ne in H2. }
  assert (Hold : ∀ l, is_Some (h !! l) →
                      <[l2 := Obj PlainObject ∅]> h' !! l = h !! l).
  { intros l [o Hl]. unfold h'.
    rewrite !lookup_insert_ne; [done|congruence|congruence]. }
  assert (Hdom : ∀ l, is_Some (<[l2 := Obj PlainObject ∅]> h' !! l) →
                      is_Some (h !! l) ∨ l = l1 ∨ l = l2).
  { intros l. destruct (decide (l2 = l)) as [<-|?]; [auto|].
    destruct (decide (l1 = l)) as [<-|?]; [auto|].
    unfold h'. rewrite !lookup_insert_ne by done. auto. }
  assert (Hl1 : <[l2 := Obj PlainObject ∅]> h' !! l1 = Some (Obj PlainObject ∅)).
  { unfold h'. by rewrite lookup_insert_ne, lookup_insert_eq. }
  assert (Hl2 : <[l2 := Obj PlainObject ∅]> h' !! l2 = Some (Obj PlainObject ∅)).
  { by rewrite lookup_insert_eq. }
  destruct swap; split; auto.
  - intros l Hl. destruct (Hdom l Hl) as [?|[?|?]]; auto.
  - intros Heq. by destruct Hne.
  - intros Heq. by destruct Hne.
Qed.

Lemma create_prepared ctrl component data opts (h : heap) :
  data_arg h data = true → opts_arg h opts = true →
  ∃ h1 ld lo,
    prepared h data opts h1 ld lo
    ∧ create ctrl component data opts h
      = Modal_new (_app ctrl) component (VRef ld) (VRef lo) h1.
Proof.
  unfold data_arg, opts_arg. intros Hd Ho.
  apply orb_true_iff in Hd as [Hd%negb_true_iff|Hd];
    apply orb_true_iff in Ho as [Ho%bool_decide_eq_true|Ho].
  - subst opts. destruct (decide (data = VUndef)) as [->|Hu].
    + eexists _, _, _. split; [apply (prepared_both_new h VUndef false Hd)|reflexivity].
    + eexists _, _, _. split; [apply (prepared_both_new h data true Hd)|].
      unfold create. rewrite (default_object_given data) by done.
      erewrite bind_Done; [|reflexivity].
      erewrite bind_Done; [|reflexivity].
      by apply Modal_new_falsy_data.
  - apply live_ref in Ho as (lo & -> & Ho).
    destruct (decide (data = VUndef)) as [->|Hu].
    + eexists _, _, _. split; [by apply (prepared_data_new h VUndef lo)|reflexivity].
    + eexists _, _, _. split; [by apply (prepared_data_new h data lo)|].
      unfold create. rewrite (default_object_given data) by done.
      erewrite bind_Done; [|reflexivity].
      erewrite bind_Done; [|reflexivity].
      by apply Modal_new_falsy_data.
  - subst opts. apply live_ref in Hd as (ld & -> & Hd).
    eexists _, _, _. split; [by apply prepared_opts_new|reflexivity].
  - apply live_ref in Hd as (ld & -> & Hd). apply live_ref in Ho as (lo & -> & Ho).
    eexists _, _, _. split; [by apply prepared_both_given|reflexivity].
Qed.

(** ** What [create] returns *)

Lemma prepared_opts_field h data opts h1 ld lo n :
  prepared h data opts h1 ld lo → field h1 (VRef lo) n = field h opts n.
Proof.
  intros [Hold _ _ Ho _]. destruct Ho as [[-> Hl]|(-> & _ & Hl)].
  - unfold field. by rewrite Hold.
  - unfold field. by rewrite Hl.
Qed.

Lemma prepared_data_field h data opts h1 ld lo n :
  prepared h data opts h1 ld lo → field h1 (VRef ld) n = field h data n.
Proof.
  intros [Hold _ Hd _ _]. destruct Hd as [[-> Hl]|(Hf & _ & Hl)].
  - unfold field. by rewrite Hold.
  - unfold field at 1. rewrite Hl. by destruct data.
Qed.

Lemma create_spec ctrl component data opts (h : heap) :
  data_arg h data = true → opts_arg h opts = true →
  ∃ h1 ld lo,
    prepared h data opts h1 ld lo
    ∧ let h4 := args_heap component ld lo h1 in
      let m := fresh (dom h4) in
      create ctrl component data opts h
      = Done (VRef m) (<[m := Obj ModalInst (instance_props (_app ctrl) ld lo h4)]> h4).
Proof.
  intros Hd Ho.
  destruct (create_prepared ctrl component data opts h Hd Ho)
    as (h1 & ld & lo & Hp & ->).
  exists h1, ld, lo. split; [done|].
  destruct (prepared_live _ _ _ _ _ _ Hp). by apply Modal_new_live.
Qed.

Section created.
Context (app component : val) (ld lo : loc) (h1 : heap).
Context (Hld : is_Some (h1 !! ld)) (Hlo : is_Some (h1 !! lo)).

Let h4 := args_heap component ld lo h1.
Let m := fresh (dom h4).
Let h' := <[m := Obj ModalInst (instance_props app ld lo h4)]> h4.

Lemma created_fresh l : is_Some (h1 !! l) → m ≠ l.
Proof. intros Hl. apply fresh_not_live. by apply args_heap_live. Qed.

Lemma created_instance n :
  field h' (VRef m) n = default VUndef (instance_props app ld lo h4 !! n).
Proof. unfold field, h'. by rewrite lookup_insert_eq. Qed.

Lemma created_old l n :
  is_Some (h1 !! l) → field h' (VRef l) n = field h4 (VRef l) n.
Proof. intros Hl. unfold h'. apply field_insert_ne. by apply created_fresh. Qed.

Lemma created_view_data : view_data h' (VRef m) = VRef ld.
Proof. unfold view_data. by rewrite created_instance. Qed.

Lemma created_view_opts : view_opts h' (VRef m) = VRef lo.
Proof.
  unfold view_opts. rewrite created_view_data, created_old by done.
  unfold h4, args_heap. apply field_upd_eq. by rewrite !upd_live.
Qed.

Lemma created_showBackdrop :
  field h' (VRef lo) "showBackdrop"
  = flag_value (field h1 (VRef lo) "showBackdrop").
Proof.
  rewrite created_old by done. unfold h4, args_heap.
  rewrite !field_upd_ne by (by right).
  rewrite field_upd_eq by (by rewrite !upd_live).
  by rewrite field_upd_ne by (by right).
Qed.

Lemma created_enableBackdropDismiss :
  field h' (VRef lo) "enableBackdropDismiss"
  = flag_value (field h1 (VRef lo) "enableBackdropDismiss").
Proof.
  rewrite created_old by done. unfold h4, args_heap.
  rewrite field_upd_ne by (by right).
  rewrite field_upd_eq by (by rewrite !upd_live).
  by rewrite !field_upd_ne by (by right).
Qed.
End created.

(** The resolved options of the instance [create] returns: each of the
    two flags is [isPresent(x) ? !!x : true] of what the caller passed. *)
Lemma create_resolved ctrl component data opts (h : heap) :
  data_arg h data = true → opts_arg h opts = true →
  ∃ m h',
    create ctrl component data opts h = Done m h'
    ∧ field h' (view_opts h' m) "showBackdrop"
      = flag_value (field h opts "showBackdrop")
    ∧ field h' (view_opts h' m) "enableBackdropDismiss"
      = flag_value (field h opts "enableBackdropDismiss").
Proof.
  intros Hd Ho.
  destruct (create_spec ctrl component data opts h Hd Ho)
    as (h1 & ld & lo & Hp & Hc).
  destruct (prepared_live _ _ _ _ _ _ Hp) as [Hld Hlo].
  eexists _, _. split; [exact Hc|].
  rewrite created_view_opts by done.
  rewrite created_showBackdrop, created_enableBackdropDismiss by done.
  by rewrite !(prepared_opts_field _ _ _ _ _ _ _ Hp).
Qed.

Lemma lacks_field h opts f : lacks h opts f = true → field h opts f = VUndef.
Proof.
  unfold lacks, mapping, field. destruct opts; try done.
  destruct (h !! l) as [o|]; [|done]. simpl.
  by intros ->%bool_decide_eq_true.
Qed.

(** * The claims *)

(** C1. For every options record passed to [create] in which
    [showBackdrop] and/or [enableBackdropDismiss] is absent, the resolved
    options record of the returned view instance has the absent field(s)
    set to [true]. *)
Theorem create_absent_flag_defaults_true ctrl component data opts (h : heap) :
  data_arg h data = true → opts_arg h opts = true →
  ∃ m h',
    create ctrl component data opts h = Done m h'
    ∧ (lacks h opts "showBackdrop" = true →
       field h' (view_opts h' m) "showBackdrop" = VBool true)
    ∧ (lacks h opts "enableBackdropDismiss" = true →
       field h' (view_opts h' m) "enableBackdropDismiss" = VBool true).
Proof.
  intros Hd Ho.
  destruct (create_resolved ctrl component data opts h Hd Ho)
    as (m & h' & Hc & Hs & He).
  exists m, h'. split; [done|]. rewrite Hs, He.
  split; intros ->%lacks_field; reflexivity.
Qed.

Lemma create_absent_flag_defaults_true_witness :
  ∃ m h',
    create sample_ctrl (VFun "CompA") VUndef (VRef 2) sample_heap = Done m h'
    ∧ (lacks sample_heap (VRef 2) "showBackdrop" = true →
       field h' (view_opts h' m) "showBackdrop" = VBool true)
    ∧ (lacks sample_heap (VRef 2) "enableBackdropDismiss" = true →
       field h' (view_opts h' m) "enableBackdropDismiss" = VBool true).
Proof.
  apply (create_absent_flag_defaults_true sample_ctrl (VFun "CompA") VUndef
           (VRef 2) sample_heap); reflexivity.
Defined.

(** C2. For every options record passed to [create] in which
    [showBackdrop] or [enableBackdropDismiss] is explicitly present with
    value [false], the resolved options record of the returned view
    instance keeps [false] for that field. *)
Theorem create_explicit_false_preserved ctrl component data opts (h : heap) :
  data_arg h data = true → opts_arg h opts = true →
  ∃ m h',
    create ctrl component data opts h = Done m h'
    ∧ (field h opts "showBackdrop" = VBool false →
       field h' (view_opts h' m) "showBackdrop" = VBool false)
    ∧ (field h opts "enableBackdropDismiss" = VBool false →
       field h' (view_opts h' m) "enableBackdropDismiss" = VBool false).
Proof.
  intros Hd Ho.
  destruct (create_resolved ctrl component data opts h Hd Ho)
    as (m & h' & Hc & Hs & He).
  exists m, h'. split; [done|]. rewrite Hs, He.
  split; intros ->; reflexivity.
Qed.

Lemma create_explicit_false_preserved_witness :
  ∃ m h',
    create sample_ctrl (VFun "CompA") VUndef (VRef 3) sample_heap = Done m h'
    ∧ (field sample_heap (VRef 3) "showBackdrop" = VBool false →
       field h' (view_opts h' m) "showBackdrop" = VBool false)
    ∧ (field sample_heap (VRef 3) "enableBackdropDismiss" = VBool false →
       field h' (view_opts h' m) "enableBackdropDismiss" = VBool false).
Proof.
  apply (create_explicit_false_preserved sample_ctrl (VFun "CompA") VUndef
           (VRef 3) sample_heap); reflexivity.
Defined.

Lemma nav_config_get_spec (h : heap) m key :
  is_Some (class_of h m) →
  let nav := field h m "_nav" in
  (truthy nav = false → nav_config_get m key h = Done nav h)
  ∧ (∀ cfg, truthy nav = true → field h nav "config" = cfg →
            class_of h nav ≠ None → class_of h cfg = Some ConfigInst →
            nav_config_get m key h = Done (field h cfg key) h).
Proof.
  destruct m as [| | | | |l|]; try by intros [? [=]].
  unfold class_of at 1. intros Hm%fmap_is_Some.
  unfold nav_config_get. rewrite (bind_Done _ _ _ _ _ (getprop_live _ _ _ Hm)).
  set (nav := field h (VRef l) "_nav"). split.
  - by intros ->.
  - intros cfg -> Hcfg Hnav Hcls.
    destruct nav as [| | | | |ln|] eqn:Hn; try done.
    unfold class_of in Hnav. destruct (h !! ln) as [on|] eqn:Hon; [|done].
    erewrite bind_Done; [|apply getprop_live; by rewrite Hon]. rewrite Hcfg.
    destruct cfg as [| | | | |lc|]; try done.
    unfold class_of in Hcls. unfold Config_get, field.
    destruct (h !! lc) as [oc|]; [|done].
    injection Hcls as ->. by rewrite decide_True.
Qed.

(** C3 (amended). [getTransitionName] returns the explicit leave
    animation (for ['back']) or enter animation (for any other direction)
    when that is truthy; otherwise, when the instance is attached to a
    navigation stack, the value its configuration has for ['modalLeave']
    (respectively ['modalEnter']); and otherwise the falsy [_nav] itself. *)
Theorem getTransitionName_explicit_then_nav (h : heap) (m : val) (d : string) :
  class_of h m = Some ModalInst →
  let back := String.eqb d "back" in
  let explicit := field h m (if back then "_leaveAnimation" else "_enterAnimation") in
  let key := if back then "modalLeave" else "modalEnter" in
  let nav := field h m "_nav" in
  (truthy explicit = true → getTransitionName m d h = Done explicit h)
  ∧ (truthy explicit = false → truthy nav = false →
     getTransitionName m d h = Done nav h)
  ∧ (truthy explicit = false → truthy nav = true →
     class_of h nav ≠ None →
     class_of h (field h nav "config") = Some ConfigInst →
     getTransitionName m d h = Done (field h (field h nav "config") key) h).
Proof.
  intros Hm back explicit key nav.
  assert (Hc : is_Some (class_of h m)) by (by rewrite Hm).
  assert (Hg : ∀ n, getprop m n h = Done (field h m n) h).
  { intros n. destruct m as [| | | | |l|]; try done.
    apply getprop_live. unfold class_of in Hm. by destruct (h !! l). }
  destruct (nav_config_get_spec h m key Hc) as [Hfalsy Hattached]. fold nav in Hfalsy, Hattached.
  assert (Hget : getTransitionName m d h
                 = if truthy explicit then Done explicit h else nav_config_get m key h).
  { unfold getTransitionName, explicit, key. fold back. destruct back.
    - rewrite (bind_Done _ _ _ _ _ (Hg _)). by case_match.
    - rewrite (bind_Done _ _ _ _ _ (Hg _)). by case_match. }
  rewrite Hget. split; [by intros ->|]. split.
  - intros -> Hn. by apply Hfalsy.
  - intros -> Hn Hnc Hcc. by apply Hattached.
Qed.

Lemma getTransitionName_explicit_then_nav_witness :
  let h := attached_heap in
  let m := VRef 7 in
  (truthy (field h m "_leaveAnimation") = true →
   getTransitionName m "back" h = Done (field h m "_leaveAnimation") h)
  ∧ (truthy (field h m "_leaveAnimation") = false →
     truthy (field h m "_nav") = false →
     getTransitionName m "back" h = Done (field h m "_nav") h)
  ∧ (truthy (field h m "_leaveAnimation") = false →
     truthy (field h m "_nav") = true →
     class_of h (field h m "_nav") ≠ None →
     class_of h (field h (field h m "_nav") "config") = Some ConfigInst →
     getTransitionName m "back" h
     = Done (field h (field h (field h m "_nav") "config") "modalLeave") h).
Proof.
  apply (getTransitionName_explicit_then_nav attached_heap (VRef 7) "back").
  reflexivity.
Defined.

(** C3 as stated fails twice over.  A freshly created instance is not
    attached to a navigation stack, and [getTransitionName] then returns
    [undefined] whatever the application's configuration (object 5) says;
    and an explicit leave animation that is the empty string is passed
    over in favour of the configured one. *)
Lemma getTransitionName_not_always_ambient_or_explicit :
  (∃ m h',
     create sample_ctrl (VFun "CompA") VUndef VUndef config_heap = Done m h'
     ∧ field h' (VRef 5) "modalLeave" = VStr "modal-slide-out"
     ∧ getTransitionName m "back" h' = Done VUndef h'
     ∧ ¬ transition_claim h' m "back" (VRef 5))
  ∧ (field attached_heap (VRef 7) "_leaveAnimation" = VStr ""
     ∧ getTransitionName (VRef 7) "back" attached_heap
       = Done (VStr "modal-slide-out") attached_heap
     ∧ ¬ transition_claim attached_heap (VRef 7) "back" (VRef 5)).
Proof.
  split.
  - eexists _, _. split; [vm_compute; reflexivity|].
    split; [vm_compute; reflexivity|]. split; [vm_compute; reflexivity|].
    unfold transition_claim. vm_compute. discriminate.
  - split; [vm_compute; reflexivity|]. split; [vm_compute; reflexivity|].
    unfold transition_claim. vm_compute. discriminate.
Qed.

(** ** The footprint of [create] *)

Lemma field_upd_cases (h : heap) l n x l' n' :
  field (upd l n x h) (VRef l') n' = field h (VRef l') n' ∨ (l = l' ∧ n = n').
Proof.
  destruct (decide (l = l')) as [->|?]; [|left; apply field_upd_ne; auto].
  destruct (decide (n = n')) as [->|?]; [auto|left; apply field_upd_ne; auto].
Qed.

Lemma args_heap_field component ld lo (h : heap) l n :
  field (args_heap component ld lo h) (VRef l) n = field h (VRef l) n
  ∨ (ld = l ∧ (n = "component" ∨ n = "opts"))
  ∨ (lo = l ∧ (n = "showBackdrop" ∨ n = "enableBackdropDismiss")).
Proof.
  unfold args_heap.
  destruct (field_upd_cases
              (upd lo "enableBackdropDismiss"
                 (flag_value (field (upd lo "showBackdrop"
                    (flag_value (field (upd ld "component" component h) (VRef lo) "showBackdrop"))
                    (upd ld "component" component h)) (VRef lo) "enableBackdropDismiss"))
                 (upd lo "showBackdrop"
                    (flag_value (field (upd ld "component" component h) (VRef lo) "showBackdrop"))
                    (upd ld "component" component h)))
              ld "opts" (VRef lo) l n) as [->|[-> <-]]; [|auto].
  destruct (field_upd_cases
              (upd lo "showBackdrop"
                 (flag_value (field (upd ld "component" component h) (VRef lo) "showBackdrop"))
                 (upd ld "component" component h))
              lo "enableBackdropDismiss"
              (flag_value (field (upd lo "showBackdrop"
                 (flag_value (field (upd ld "component" component h) (VRef lo) "showBackdrop"))
                 (upd ld "component" component h)) (VRef lo) "enableBackdropDismiss"))
              l n) as [->|[-> <-]]; [|auto].
  destruct (field_upd_cases (upd ld "component" component h) lo "showBackdrop"
              (flag_value (field (upd ld "component" component h) (VRef lo) "showBackdrop"))
              l n) as [->|[-> <-]]; [|auto].
  destruct (field_upd_cases h ld "component" component l n) as [->|[-> <-]]; auto.
Qed.

Lemma args_heap_other component ld lo (h : heap) l :
  ld ≠ l → lo ≠ l → args_heap component ld lo h !! l = h !! l.
Proof.
  intros Hd Ho. unfold args_heap. rewrite !upd_lookup. by rewrite !decide_False.
Qed.

Lemma args_heap_cls component ld lo (h : heap) l :
  cls <$> args_heap component ld lo h !! l = cls <$> h !! l.
Proof. unfold args_heap. by rewrite !upd_cls. Qed.

Lemma prepared_data_ne h data opts h1 ld lo l :
  prepared h data opts h1 ld lo → is_Some (h !! l) → data ≠ VRef l → ld ≠ l.
Proof.
  intros [_ _ Hd _ _] Hl Hne ->. destruct Hd as [[-> _]|(_ & Hn & _)]; [done|].
  rewrite Hn in Hl. by destruct Hl.
Qed.

Lemma prepared_opts_ne h data opts h1 ld lo l :
  prepared h data opts h1 ld lo → is_Some (h !! l) → opts ≠ VRef l → lo ≠ l.
Proof.
  intros [_ _ _ Ho _] Hl Hne ->. destruct Ho as [[-> _]|(_ & Hn & _)]; [done|].
  rewrite Hn in Hl. by destruct Hl.
Qed.

(** C4 as stated fails: the call of the usage example, with the payload
    object 4 and the options object 2, changes both of the caller's
    objects. *)
Lemma create_changes_callers_arguments :
  ∃ m h',
    create sample_ctrl (VFun "CompA") (VRef 4) (VRef 2) sample_heap = Done m h'
    ∧ field sample_heap (VRef 4) "component" = VUndef
    ∧ field h' (VRef 4) "component" = VFun "CompA"
    ∧ field sample_heap (VRef 2) "showBackdrop" = VUndef
    ∧ field h' (VRef 2) "showBackdrop" = VBool true
    ∧ ¬ leaves_unchanged sample_heap h'.
Proof.
  eexists _, _. split; [vm_compute; reflexivity|].
  do 4 (split; [vm_compute; reflexivity|]).
  intros Hun. specialize (Hun 4%positive (ltac:(vm_compute; eauto))).
  apply (f_equal (λ o, o ≫= λ x, props x !! "component")) in Hun.
  vm_compute in Hun. discriminate.
Qed.

(** ** The data payload of the created instance *)

Lemma prepared_payload h data opts h1 ld lo :
  prepared h data opts h1 ld lo → mapping h1 (VRef ld) = Some (payload h data).
Proof.
  intros [Hold _ Hd _ _]. unfold payload, mapping.
  destruct Hd as [[-> [o Hl]]|(Hf & _ & Hl)].
  - rewrite Hold by (by rewrite Hl). by rewrite Hl.
  - rewrite Hl. by destruct data.
Qed.

Lemma prepared_new_opts h data h1 ld lo :
  prepared h data VUndef h1 ld lo → mapping h1 (VRef lo) = Some ∅ ∧ ld ≠ lo.
Proof.
  intros [_ _ _ Ho Ha]. destruct Ho as [[[=] _]|(_ & _ & Hl)].
  split; [unfold mapping; by rewrite Hl|].
  intros Heq. destruct (Ha Heq) as [-> ?]. done.
Qed.

Lemma field_of_mapping (h : heap) v fields n :
  mapping h v = Some fields → field h v n = default VUndef (fields !! n).
Proof.
  unfold mapping, field. destruct v; try done.
  destruct (h !! l); [|done]. by intros [= ->].
Qed.

Lemma mapping_insert_ne (h : heap) l o l' :
  l ≠ l' → mapping (<[l := o]> h) (VRef l') = mapping h (VRef l').
Proof. intros Hne. unfold mapping. by rewrite lookup_insert_ne. Qed.

Lemma prepared_opts_payload h data opts h1 ld lo :
  prepared h data opts h1 ld lo → mapping h1 (VRef lo) = Some (payload h opts).
Proof.
  intros [Hold _ _ Ho _]. unfold payload, mapping.
  destruct Ho as [[-> [o Hl]]|(-> & _ & Hl)].
  - rewrite Hold by (by rewrite Hl). by rewrite Hl.
  - by rewrite Hl.
Qed.

(** C5 (amended). For [data] and [opts] that are not one object, the
    view instance holds a data object [ld] and an options object [lo]:
    the caller's own objects when objects were passed, new ones
    otherwise.  The mapping of [ld] is the payload [D] with the component
    reference under ['component'] and a reference to [lo] under a second
    reserved key, ['opts']; the mapping of [lo], the resolved options
    record, is the options passed with the two flags resolved.  When
    [opts] is omitted that record is exactly [{showBackdrop: true,
    enableBackdropDismiss: true}]. *)
Theorem create_data_mapping ctrl component data opts (h : heap) :
  data_arg h data = true → opts_arg h opts = true →
  aliased h data opts = false →
  ∃ m ld lo h',
    create ctrl component data opts h = Done m h'
    ∧ mapping h' (view_data h' m)
      = Some (<["opts" := view_opts h' m]>
                (<["component" := component]> (payload h data)))
    ∧ (opts = VUndef →
       mapping h' (view_opts h' m)
       = Some (<["enableBackdropDismiss" := VBool true]>
                 {[ "showBackdrop" := VBool true ]}))
    ∧ view_data h' m = VRef ld
    ∧ view_opts h' m = VRef lo
    ∧ (if live h data then data = VRef ld else h !! ld = None)
    ∧ (if live h opts then opts = VRef lo else h !! lo = None)
    ∧ mapping h' (VRef ld)
      = Some (<["opts" := VRef lo]>
                (<["component" := component]> (payload h data)))
    ∧ mapping h' (VRef lo)
      = Some (<["enableBackdropDismiss" :=
                  flag_value (field h opts "enableBackdropDismiss")]>
                (<["showBackdrop" := flag_value (field h opts "showBackdrop")]>
                   (payload h opts))).
Proof.
  intros Hd Ho Hal.
  destruct (create_spec ctrl component data opts h Hd Ho)
    as (h1 & ld & lo & Hp & Hc). cbv zeta in Hc.
  destruct (prepared_live _ _ _ _ _ _ Hp) as [Hld Hlo].
  assert (Hne : ld ≠ lo).
  { intros Heq. destruct (prep_alias _ _ _ _ _ _ Hp Heq) as [-> Hlive].
    unfold aliased in Hal. by rewrite bool_decide_true, Hlive in Hal. }
  assert (Hmd : mapping (args_heap component ld lo h1) (VRef ld)
                = Some (<["opts" := VRef lo]>
                          (<["component" := component]> (payload h data)))).
  { unfold args_heap.
    rewrite mapping_upd_eq, !mapping_upd_ne, mapping_upd_eq by done.
    by rewrite (prepared_payload _ _ _ _ _ _ Hp). }
  assert (Hmo : mapping (args_heap component ld lo h1) (VRef lo)
                = Some (<["enableBackdropDismiss" :=
                            flag_value (field h opts "enableBackdropDismiss")]>
                          (<["showBackdrop" :=
                               flag_value (field h opts "showBackdrop")]>
                             (payload h opts)))).
  { unfold args_heap.
    rewrite mapping_upd_ne, !mapping_upd_eq, mapping_upd_ne by done.
    rewrite !field_upd_ne by (by right).
    rewrite !(prepared_opts_field _ _ _ _ _ _ _ Hp).
    by rewrite (prepared_opts_payload _ _ _ _ _ _ Hp). }
  eexists _, ld, lo, _. split; [exact Hc|].
  rewrite created_view_opts, created_view_data by done.
  rewrite !mapping_insert_ne by (by apply created_fresh).
  rewrite Hmd, Hmo. split_and!; try done.
  - by intros ->.
  - destruct (prep_data _ _ _ _ _ _ Hp) as [[-> Hl]|(Hf & Hn & _)].
    + simpl. by rewrite bool_decide_true.
    + by destruct data.
  - destruct (prep_opts _ _ _ _ _ _ Hp) as [[-> Hl]|(-> & Hn & _)].
    + simpl. by rewrite bool_decide_true.
    + done.
Qed.

Lemma create_data_mapping_witness :
  ∃ m ld lo h',
    create sample_ctrl (VFun "CompA") (VRef 4) VUndef sample_heap = Done m h'
    ∧ mapping h' (view_data h' m)
      = Some (<["opts" := view_opts h' m]>
                (<["component" := (VFun "CompA")]> (payload sample_heap (VRef 4))))
    ∧ (VUndef = VUndef →
       mapping h' (view_opts h' m)
       = Some (<["enableBackdropDismiss" := VBool true]>
                 {[ "showBackdrop" := VBool true ]}))
    ∧ view_data h' m = VRef ld
    ∧ view_opts h' m = VRef lo
    ∧ (if live sample_heap (VRef 4) then (VRef 4) = VRef ld else sample_heap !! ld = None)
    ∧ (if live sample_heap VUndef then VUndef = VRef lo else sample_heap !! lo = None)
    ∧ mapping h' (VRef ld)
      = Some (<["opts" := VRef lo]>
                (<["component" := (VFun "CompA")]> (payload sample_heap (VRef 4))))
    ∧ mapping h' (VRef lo)
      = Some (<["enableBackdropDismiss" :=
                  flag_value (field sample_heap VUndef "enableBackdropDismiss")]>
                (<["showBackdrop" := flag_value (field sample_heap VUndef "showBackdrop")]>
                   (payload sample_heap VUndef))).
Proof.
  apply (create_data_mapping sample_ctrl (VFun "CompA") (VRef 4) VUndef sample_heap);
    reflexivity.
Defined.

(** The usage example: [create(CompA, {userId: 8675309})]. *)
Example create_usage_example :
  ∃ m h',
    create sample_ctrl (VFun "CompA") (VRef 4) VUndef sample_heap = Done m h'
    ∧ field h' (view_data h' m) "component" = VFun "CompA"
    ∧ field h' (view_data h' m) "userId" = VNum 8675309
    ∧ field h' (view_opts h' m) "showBackdrop" = VBool true
    ∧ field h' (view_opts h' m) "enableBackdropDismiss" = VBool true.
Proof.
  eexists _, _. split; [vm_compute; reflexivity|].
  split_and!; vm_compute; reflexivity.
Qed.

(** C5 as stated fails: the constructor also writes the key ['opts'] of
    the payload, so a payload entry under that key is replaced and the data
    mapping is not [D] merged with the component reference alone. *)
Lemma payload_opts_entry_replaced :
  ∃ m h',
    create sample_ctrl (VFun "CompA") (VRef 8) VUndef reserved_heap = Done m h'
    ∧ payload reserved_heap (VRef 8) !! "opts" = Some (VNum 7)
    ∧ field h' (view_data h' m) "opts" = VRef 9
    ∧ mapping h' (view_data h' m)
      ≠ Some (spec_data_mapping (VFun "CompA") (payload reserved_heap (VRef 8))).
Proof.
  eexists _, _. split; [vm_compute; reflexivity|].
  do 2 (split; [vm_compute; reflexivity|]).
  intros Heq. apply (f_equal (λ o, o ≫= λ fields, fields !! "opts")) in Heq.
  vm_compute in Heq. discriminate.
Qed.

(** ** [present] *)

Lemma default_object_passed (h : heap) n :
  default_object n h = Done (passed_options h n).1 (passed_options h n).2.
Proof. by destruct n. Qed.

Lemma passed_options_old (h : heap) n l :
  is_Some (h !! l) → (passed_options h n).2 !! l = h !! l.
Proof.
  intros Hl. destruct n; try done. simpl.
  rewrite lookup_insert_ne; [done|]. by apply fresh_not_live.
Qed.

Lemma class_of_Some_live (h : heap) v c :
  class_of h v = Some c → ∃ l, v = VRef l ∧ is_Some (h !! l).
Proof.
  destruct v; try done. simpl. intros Hc. exists l. split; [done|].
  by destruct (h !! l).
Qed.

Lemma present_spec (h : heap) m n :
  presentable h m = true →
  present m n h
  = Invoke (present_call h m n) (passed_options h n).2 (λ r h', Done r h').
Proof.
  unfold presentable. intros [Hm Ha]%andb_true_iff.
  apply bool_decide_eq_true in Hm, Ha.
  destruct (class_of_Some_live _ _ _ Hm) as (l & -> & Hl).
  destruct (class_of_Some_live _ _ _ Ha) as (la & Hla & Hlive).
  unfold present, present_call.
  rewrite (bind_Done _ _ _ _ _ (default_object_passed h n)).
  pose proof (passed_options_old h n l Hl) as Hsame.
  erewrite bind_Done; [|apply getprop_live; by rewrite Hsame].
  assert (Hf : field (passed_options h n).2 (VRef l) "_app" = field h (VRef l) "_app")
    by (unfold field; by rewrite Hsame).
  rewrite Hf, Hla. unfold App_present.
  rewrite (passed_options_old h n la Hlive).
  rewrite Hla in Ha. simpl in Ha. destruct (h !! la) as [oa|]; [|done].
  injection Ha as Ha. by rewrite decide_True.
Qed.

Lemma run_present (P : presenter) (h : heap) m n :
  presentable h m = true →
  run P (present m n h)
  = ((P (present_call h m n) (passed_options h n).2).1,
     (P (present_call h m n) (passed_options h n).2).2,
     [present_call h m n]).
Proof.
  intros Hp. rewrite present_spec by done. simpl.
  by destruct (P _ _) as [[r|e] h'].
Qed.

(** C6. [m.present(n)] delegates to the external presenter exactly once,
    passing the view instance [m], the navigation options [n] (a new empty
    object when they are omitted) and the tag [MODAL], and returns the
    presenter's completion signal unchanged. *)
Theorem present_delegates_once (h : heap) (m n : val) :
  presentable h m = true →
  (n ≠ VUndef → passed_options h n = (n, h))
  ∧ present m n h
    = Invoke (AppPresent (field h m "_app") m (passed_options h n).1 MODAL)
        (passed_options h n).2 (λ r h', Done r h')
  ∧ ∀ P : presenter,
      let answer := P (AppPresent (field h m "_app") m (passed_options h n).1 MODAL)
                      (passed_options h n).2 in
      run P (present m n h)
      = (answer.1, answer.2,
         [AppPresent (field h m "_app") m (passed_options h n).1 MODAL]).
Proof.
  intros Hp. split_and!.
  - by destruct n.
  - by apply present_spec.
  - intros P. by apply run_present.
Qed.

Lemma present_delegates_once_witness :
  let h := attached_heap in
  let m := VRef 7 in
  let n := VRef 2 in
  (n ≠ VUndef → passed_options h n = (n, h))
  ∧ present m n h
    = Invoke (AppPresent (field h m "_app") m (passed_options h n).1 MODAL)
        (passed_options h n).2 (λ r h', Done r h')
  ∧ ∀ P : presenter,
      let answer := P (AppPresent (field h m "_app") m (passed_options h n).1 MODAL)
                      (passed_options h n).2 in
      run P (present m n h)
      = (answer.1, answer.2,
         [AppPresent (field h m "_app") m (passed_options h n).1 MODAL]).
Proof.
  apply (present_delegates_once attached_heap (VRef 7) (VRef 2)). reflexivity.
Defined.

(** An instance made by a controller that holds an [App] can be presented. *)
Lemma create_presentable ctrl component data opts (h : heap) :
  data_arg h data = true → opts_arg h opts = true →
  class_of h (_app ctrl) = Some AppInst →
  ∃ m h', create ctrl component data opts h = Done m h' ∧ presentable h' m = true.
Proof.
  intros Hd Ho Ha.
  destruct (create_spec ctrl component data opts h Hd Ho)
    as (h1 & ld & lo & Hp & Hc). cbv zeta in Hc.
  destruct (prepared_live _ _ _ _ _ _ Hp) as [Hld Hlo].
  eexists _, _. split; [exact Hc|].
  destruct (class_of_Some_live _ _ _ Ha) as (la & Hla & Hlive).
  assert (Hla1 : is_Some (h1 !! la)) by (by rewrite (prep_old _ _ _ _ _ _ Hp)).
  unfold presentable. rewrite created_instance.
  change (default VUndef (instance_props (_app ctrl) ld lo _ !! "_app")) with (_app ctrl).
  apply andb_true_iff. split; apply bool_decide_eq_true.
  - unfold class_of. by rewrite lookup_insert_eq.
  - rewrite <- Ha, Hla. unfold class_of.
    rewrite lookup_insert_ne by (by apply created_fresh).
    by rewrite args_heap_cls, (prep_old _ _ _ _ _ _ Hp).
Qed.

(** ** The lifecycle *)

(** C8 (amended). [Modal.present] consults no lifecycle state: on a modal
    instance in any state of the heap it makes its one request to the
    presenter, and the call is rejected exactly when the presenter rejects
    that request. *)
Theorem present_rejected_iff_presenter_rejects (P : presenter) (h : heap) (m n : val) :
  presentable h m = true →
  (run P (present m n h)).2 = [present_call h m n]
  ∧ rejected (run P (present m n h)).1.1
    = rejected (P (present_call h m n) (passed_options h n).2).1.
Proof.
  intros Hp. by rewrite run_present.
Qed.

Lemma present_rejected_iff_presenter_rejects_witness :
  (run accept_all (present (VRef 7) VUndef attached_heap)).2
  = [present_call attached_heap (VRef 7) VUndef]
  ∧ rejected (run accept_all (present (VRef 7) VUndef attached_heap)).1.1
    = rejected (accept_all (present_call attached_heap (VRef 7) VUndef)
                  (passed_options attached_heap VUndef).2).1.
Proof.
  apply (present_rejected_iff_presenter_rejects accept_all attached_heap (VRef 7) VUndef).
  reflexivity.
Defined.

(** C8 as stated fails: an instance is created, presented and dismissed
    (the dismissal is the base class's and runs no code of [Modal]); by the
    state machine of the spec it is then [dismissed], from where no
    transition is valid, yet a second [present] is passed to the presenter
    like the first and resolves when the presenter accepts it. *)
Lemma present_again_after_dismissed_accepted :
  ∃ m h1 h2 h3 c1 c2,
    create sample_ctrl (VFun "CompA") VUndef VUndef sample_heap = Done m h1
    ∧ run accept_all (present m VUndef h1) = (Ok (Resolved VUndef), h2, [c1])
    ∧ spec_phase_from created [EvPresent; EvEntered; EvDismiss; EvLeft] = Some dismissed
    ∧ spec_step dismissed EvPresent = None
    ∧ run accept_all (present m VUndef h2) = (Ok (Resolved VUndef), h3, [c2])
    ∧ ¬ single_use_claim accept_all h2 m VUndef [EvPresent; EvEntered; EvDismiss; EvLeft].
Proof.
  eexists _, _, _, _, _, _. split; [vm_compute; reflexivity|].
  split; [vm_compute; reflexivity|]. split; [reflexivity|]. split; [reflexivity|].
  split; [vm_compute; reflexivity|].
  unfold single_use_claim. intros Hc.
  specialize (Hc (or_introl eq_refl)). vm_compute in Hc. discriminate.
Qed.

(** ** Transition names and the registry *)

(** C9 (amended). The modal code raises no error over transition names:
    [getTransitionName] consults no registry, never throws and leaves the
    heap alone; it returns an explicit (truthy) name as it was given,
    registered or not, and may return a falsy value when there is none. *)
Theorem getTransitionName_never_fails (h : heap) (m : val) (d : string) :
  class_of h m = Some ModalInst → nav_ok h m = true →
  let explicit :=
    field h m (if String.eqb d "back" then "_leaveAnimation" else "_enterAnimation") in
  (∃ name,
     getTransitionName m d h = Done name h
     ∧ (truthy explicit = true → name = explicit)
     ∧ (truthy explicit = false → truthy (field h m "_nav") = false →
        truthy name = false))
  ∧ (∀ (P : presenter) (n : val),
       presentable h m = true →
       rejected (run P (present m n h)).1.1
       = rejected (P (present_call h m n) (passed_options h n).2).1).
Proof.
  intros Hm Hn explicit.
  split; [|intros P n Hp; by rewrite run_present].
  assert (Hc : is_Some (class_of h m)) by (by rewrite Hm).
  assert (Hg : ∀ k, getprop m k h = Done (field h m k) h).
  { intros k. destruct (class_of_Some_live _ _ _ Hm) as (l & -> & Hl).
    by apply getprop_live. }
  assert (Hcfg : ∀ key, ∃ v, nav_config_get m key h = Done v h
                             ∧ (truthy (field h m "_nav") = false → truthy v = false)).
  { intros key. destruct (nav_config_get_spec h m key Hc) as [Hfalsy Hatt].
    unfold nav_ok in Hn. apply orb_true_iff in Hn as [Hn%negb_true_iff|Hn].
    - eexists. split; [by apply Hfalsy|done].
    - apply andb_true_iff in Hn as [H1%bool_decide_eq_true H2%bool_decide_eq_true].
      destruct (truthy (field h m "_nav")) eqn:Ht.
      + eexists. split; [by eapply Hatt|done].
      + eexists. split; [by apply Hfalsy|done]. }
  unfold getTransitionName, explicit.
  destruct (String.eqb d "back"); cbv iota.
  - rewrite (bind_Done _ _ _ _ _ (Hg _)).
    destruct (truthy (field h m "_leaveAnimation")) eqn:Ht.
    + eexists. split; [reflexivity|]. split; done.
    + destruct (Hcfg "modalLeave") as (v & -> & Hv). exists v. split_and!; [done|done|auto].
  - rewrite (bind_Done _ _ _ _ _ (Hg _)).
    destruct (truthy (field h m "_enterAnimation")) eqn:Ht.
    + eexists. split; [reflexivity|]. split; done.
    + destruct (Hcfg "modalEnter") as (v & -> & Hv). exists v. split_and!; [done|done|auto].
Qed.

Lemma getTransitionName_never_fails_witness :
  (∃ name,
     getTransitionName (VRef 9) "forward" unregistered_heap = Done name unregistered_heap
     ∧ (truthy (field unregistered_heap (VRef 9) "_enterAnimation") = true →
        name = field unregistered_heap (VRef 9) "_enterAnimation")
     ∧ (truthy (field unregistered_heap (VRef 9) "_enterAnimation") = false →
        truthy (field unregistered_heap (VRef 9) "_nav") = false →
        truthy name = false))
  ∧ (∀ (P : presenter) (n : val),
       presentable unregistered_heap (VRef 9) = true →
       rejected (run P (present (VRef 9) n unregistered_heap)).1.1
       = rejected (P (present_call unregistered_heap (VRef 9) n)
                     (passed_options unregistered_heap n).2).1).
Proof.
  apply (getTransitionName_never_fails unregistered_heap (VRef 9) "forward");
    reflexivity.
Defined.

(** C9 as stated fails: with the registry as the modal module loads it,
    the enter animation of instance 9 is not registered; its name is
    returned all the same, nothing is thrown, and the presentation
    resolves when the presenter accepts it. *)
Lemma unregistered_name_not_rejected :
  registered (modal_module_load ∅) (VStr "no-such-animation") = false
  ∧ getTransitionName (VRef 9) "forward" unregistered_heap
    = Done (VStr "no-such-animation") unregistered_heap
  ∧ (run accept_all (present (VRef 9) (VRef 2) unregistered_heap)).1.1
    = Ok (Resolved VUndef)
  ∧ ¬ unregistered_rejected_claim (modal_module_load ∅) accept_all
        unregistered_heap (VRef 9) (VRef 2) "forward".
Proof.
  split; [vm_compute; reflexivity|]. split; [vm_compute; reflexivity|].
  split; [vm_compute; reflexivity|].
  intros Hc. specialize (Hc (VStr "no-such-animation")).
  assert (He : rejected (run accept_all (present (VRef 9) (VRef 2) unregistered_heap)).1.1 = true).
  { apply Hc; vm_compute; reflexivity. }
  vm_compute in He. discriminate.
Qed.

(** ** The registry *)

Lemma register_all_snoc rs p (reg : gmap string val) :
  register_all (rs ++ [p]) reg = Animation_register p.1 p.2 (register_all rs reg).
Proof. unfold register_all. by rewrite foldl_app. Qed.

Lemma register_all_other n rs (reg : gmap string val) :
  n ∉ rs.*1 →
  Animation_lookup n (register_all rs reg) = Animation_lookup n reg.
Proof.
  induction rs as [|p rs IH] using rev_ind; [done|].
  rewrite fmap_app, elem_of_app. intros Hn.
  rewrite register_all_snoc. unfold Animation_lookup, Animation_register.
  rewrite lookup_insert_ne.
  - apply IH. tauto.
  - intros Heq. apply Hn. right. rewrite <- Heq. simpl. constructor.
Qed.

Lemma register_all_keeps k rs (reg : gmap string val) :
  is_Some (Animation_lookup k reg) →
  is_Some (Animation_lookup k (register_all rs reg)).
Proof.
  intros Hk. induction rs as [|p rs IH] using rev_ind; [done|].
  rewrite register_all_snoc. unfold Animation_lookup, Animation_register in *.
  destruct (decide (p.1 = k)) as [->|Hne].
  - by rewrite lookup_insert_eq.
  - by rewrite lookup_insert_ne.
Qed.

(** C7. After [register(n, f1)] followed by [register(n, f2)], every later
    lookup of [n] resolves to [f2], whatever else is registered under
    other names in between; and a name that is registered stays
    registered, whatever is registered later. *)
Theorem register_last_write_wins (n : string) (f1 f2 : val)
    (later : list (string * val)) (reg : gmap string val) :
  n ∉ later.*1 →
  Animation_lookup n
    (register_all later (Animation_register n f2 (Animation_register n f1 reg)))
  = Some f2
  ∧ ∀ k rs, is_Some (Animation_lookup k reg) →
            is_Some (Animation_lookup k (register_all rs reg)).
Proof.
  intros Hn. split.
  - rewrite register_all_other by done.
    unfold Animation_lookup, Animation_register. apply lookup_insert_eq.
  - intros k rs. apply register_all_keeps.
Qed.

Lemma register_last_write_wins_witness :
  Animation_lookup "modal-slide-in"
    (register_all [("my-fade-in", VFun "FadeIn")]
       (Animation_register "modal-slide-in" (VFun "Custom")
          (Animation_register "modal-slide-in" (VFun "ModalSlideIn") ∅)))
  = Some (VFun "Custom")
  ∧ ∀ k rs, is_Some (Animation_lookup k (∅ : gmap string val)) →
            is_Some (Animation_lookup k (register_all rs ∅)).
Proof.
  apply (register_last_write_wins "modal-slide-in" (VFun "ModalSlideIn")
           (VFun "Custom") [("my-fade-in", VFun "FadeIn")] ∅).
  apply (bool_decide_unpack _). vm_compute. exact I.
Defined.

(** What the modal module registers when it is loaded. *)
Example modal_module_load_registers :
  Animation_lookup "modal-slide-in" (modal_module_load ∅) = Some (VFun "ModalSlideIn")
  ∧ Animation_lookup "modal-slide-out" (modal_module_load ∅) = Some (VFun "ModalSlideOut").
Proof. split; vm_compute; reflexivity. Qed.

(** ** The label *)

(** C10. The type of a new [Label] is that of the first attribute, in the
    order floating, stacked, fixed, inset, that is bound to the empty
    string, and [null] when none of the four is; it is given by the
    constructor and the [id] setter leaves it alone. *)
Theorem Label_type_precedence (isFloating isStacked isFixed isInset : val) :
  type (Label_new isFloating isStacked isFixed isInset)
  = first_empty_attribute
      [("floating", isFloating); ("stacked", isStacked);
       ("fixed", isFixed); ("inset", isInset)]
  ∧ (type (Label_new isFloating isStacked isFixed isInset) = VNull
     ↔ isFloating ≠ VStr "" ∧ isStacked ≠ VStr ""
       ∧ isFixed ≠ VStr "" ∧ isInset ≠ VStr "")
  ∧ ∀ v, type (Label_set_id v (Label_new isFloating isStacked isFixed isInset))
         = type (Label_new isFloating isStacked isFixed isInset).
Proof.
  split_and!.
  - unfold Label_new, first_empty_attribute, strict_eq. simpl.
    repeat case_bool_decide; reflexivity.
  - unfold Label_new, strict_eq. simpl.
    repeat case_bool_decide; split; try done; intros (? & ? & ? & ?); done.
  - reflexivity.
Qed.

(** The attribute bindings seen in markup: a present attribute without a
    value is the empty string, an absent one is [null]. *)
Example Label_type_examples :
  type (Label_new VNull (VStr "") (VStr "") VNull) = VStr "stacked"
  ∧ type (Label_new (VStr "") (VStr "") VNull (VStr "")) = VStr "floating"
  ∧ type (Label_new VNull VNull VNull (VStr "")) = VStr "inset"
  ∧ type (Label_new (VStr "true") VNull VNull VNull) = VNull.
Proof. split_and!; reflexivity. Qed.

(** * Further properties of the modal code *)

Lemma prepared_field h data opts h1 ld lo l n :
  prepared h data opts h1 ld lo → field h1 (VRef l) n = field h (VRef l) n.
Proof.
  intros Hp. destruct (h !! l) as [o|] eqn:Hl.
  - unfold field. by rewrite (prep_old _ _ _ _ _ _ Hp l), Hl by (by rewrite Hl).
  - unfold field at 2. rewrite Hl.
    destruct (h1 !! l) as [o1|] eqn:Hl1; [|unfold field; by rewrite Hl1].
    assert (Hs : is_Some (h1 !! l)) by (by rewrite Hl1).
    destruct (prep_dom _ _ _ _ _ _ Hp l Hs) as [Hin|[->| ->]].
    + rewrite Hl in Hin. by destruct Hin.
    + destruct (prep_data _ _ _ _ _ _ Hp) as [[_ Hin]|(_ & _ & He)].
      * rewrite Hl in Hin. by destruct Hin.
      * unfold field. by rewrite He.
    + destruct (prep_opts _ _ _ _ _ _ Hp) as [[_ Hin]|(_ & _ & He)].
      * rewrite Hl in Hin. by destruct Hin.
      * unfold field. by rewrite He.
Qed.

Lemma prepared_other h data opts h1 ld lo l :
  prepared h data opts h1 ld lo → l ≠ ld → l ≠ lo → h1 !! l = h !! l.
Proof.
  intros Hp Hd Ho. destruct (h !! l) as [o|] eqn:Hl.
  - by rewrite (prep_old _ _ _ _ _ _ Hp l), Hl by (by rewrite Hl).
  - destruct (h1 !! l) as [o1|] eqn:Hl1; [|done].
    assert (Hs : is_Some (h1 !! l)) by (by rewrite Hl1).
    destruct (prep_dom _ _ _ _ _ _ Hp l Hs) as [Hin|[?|?]]; try done.
    rewrite Hl in Hin. by destruct Hin.
Qed.

Lemma args_heap_untouched component ld lo (h : heap) l n :
  n ≠ "component" → n ≠ "opts" →
  n ≠ "showBackdrop" → n ≠ "enableBackdropDismiss" →
  field (args_heap component ld lo h) (VRef l) n = field h (VRef l) n.
Proof.
  intros H1 H2 H3 H4. unfold args_heap.
  by rewrite !field_upd_ne by (right; congruence).
Qed.

Lemma create_completes ctrl component data opts (h : heap) :
  data_arg h data = true → opts_arg h opts = true →
  ∃ m ld lo h',
    create ctrl component data opts h = Done (VRef m) h'
    ∧ create_post ctrl component data opts h m ld lo h'.
Proof.
  intros Hd Ho.
  destruct (create_spec ctrl component data opts h Hd Ho)
    as (h1 & ld & lo & Hp & Hc). cbv zeta in Hc.
  destruct (prepared_live _ _ _ _ _ _ Hp) as [Hld Hlo].
  set (h4 := args_heap component ld lo h1) in *.
  set (m := fresh (dom h4)) in *.
  assert (Hm4 : h4 !! m = None) by apply not_elem_of_dom, is_fresh.
  assert (Hm1 : h1 !! m = None).
  { destruct (h1 !! m) eqn:Hx; [|done].
    assert (Hl : is_Some (h4 !! m)) by (apply args_heap_live; by rewrite Hx).
    rewrite Hm4 in Hl. by destruct Hl. }
  assert (Hmld : m ≠ ld) by (intros Heq; rewrite Heq in Hm1; rewrite Hm1 in Hld; by destruct Hld).
  assert (Hmlo : m ≠ lo) by (intros Heq; rewrite Heq in Hm1; rewrite Hm1 in Hlo; by destruct Hlo).
  assert (Hnew : h !! m = None).
  { destruct (h !! m) eqn:Hx; [|done].
    rewrite <- (prep_old _ _ _ _ _ _ Hp m), Hm1 in Hx by (by rewrite Hx). done. }
  exists m, ld, lo. eexists. split; [exact Hc|]. split.
  - done.
  - done.
  - done.
  - destruct (prep_data _ _ _ _ _ _ Hp) as [?|(? & ? & _)]; auto.
  - destruct (prep_opts _ _ _ _ _ _ Hp) as [?|(? & ? & _)]; auto.
  - intros l. destruct (decide (m = l)) as [<-|Hne].
    + rewrite lookup_insert_eq. split; [auto|by eauto].
    + rewrite lookup_insert_ne by done. unfold h4. rewrite args_heap_live. split.
      * intros Hl. destruct (prep_dom _ _ _ _ _ _ Hp l Hl) as [?|[?|?]]; auto.
      * intros [Hl|[?|[->| ->]]]; try done.
        by rewrite (prep_old _ _ _ _ _ _ Hp l Hl).
  - rewrite lookup_insert_eq. unfold instance_props, modal_fields, h4.
    rewrite !args_heap_untouched by done.
    by rewrite !(prepared_opts_field _ _ _ _ _ _ _ Hp).
  - rewrite field_insert_ne by done. unfold h4, args_heap.
    rewrite !field_upd_ne by (by right). by apply field_upd_eq.
  - rewrite field_insert_ne by done. unfold h4, args_heap.
    apply field_upd_eq. by rewrite !upd_live.
  - unfold m, h4.
    rewrite (created_showBackdrop (_app ctrl) component ld lo h1 Hlo).
    by rewrite (prepared_opts_field _ _ _ _ _ _ _ Hp).
  - unfold m, h4.
    rewrite (created_enableBackdropDismiss (_app ctrl) component ld lo h1 Hlo).
    by rewrite (prepared_opts_field _ _ _ _ _ _ _ Hp).
  - intros l n Hne H1 H2 H3 H4. rewrite field_insert_ne by done.
    unfold h4. rewrite args_heap_untouched by done.
    by apply (prepared_field _ _ _ _ _ _ _ _ Hp).
  - intros l Hne Hnd Hno. rewrite lookup_insert_ne by done.
    unfold h4. rewrite args_heap_other by done.
    by apply (prepared_other _ _ _ _ _ _ _ Hp).
  - intros l Hne Hl. unfold class_of. rewrite lookup_insert_ne by done.
    unfold h4. by rewrite args_heap_cls, (prep_old _ _ _ _ _ _ Hp l Hl).
  - intros l n Hne Hnd Hno. rewrite field_insert_ne by done. unfold h4.
    destruct (args_heap_field component ld lo h1 l n) as [->|[[<- Hn]|[<- Hn]]].
    + by apply (prepared_field _ _ _ _ _ _ _ _ Hp).
    + by destruct Hnd.
    + by destruct Hno.
  - intros Hn. unfold class_of. rewrite lookup_insert_ne by done.
    unfold h4. rewrite args_heap_cls.
    destruct (prep_data _ _ _ _ _ _ Hp) as [[_ Hl]|(_ & _ & ->)]; [|done].
    rewrite Hn in Hl. by destruct Hl.
  - intros Hn. unfold class_of. rewrite lookup_insert_ne by done.
    unfold h4. rewrite args_heap_cls.
    destruct (prep_opts _ _ _ _ _ _ Hp) as [[_ Hl]|(_ & _ & ->)]; [|done].
    rewrite Hn in Hl. by destruct Hl.
Qed.

Lemma post_field ctrl component data opts (h : heap) m ld lo h' k :
  create_post ctrl component data opts h m ld lo h' →
  field h' (VRef m) k
  = default VUndef
      (modal_fields (_app ctrl) ld (field h opts "enterAnimation")
         (field h opts "leaveAnimation") !! k).
Proof. intros Hp. unfold field. by rewrite (cp_inst _ _ _ _ _ _ _ _ _ Hp). Qed.

Lemma post_view_data ctrl component data opts (h : heap) m ld lo h' :
  create_post ctrl component data opts h m ld lo h' →
  view_data h' (VRef m) = VRef ld.
Proof. intros Hp. unfold view_data. by rewrite (post_field _ _ _ _ _ _ _ _ _ _ Hp). Qed.

Lemma post_view_opts ctrl component data opts (h : heap) m ld lo h' :
  create_post ctrl component data opts h m ld lo h' →
  view_opts h' (VRef m) = VRef lo.
Proof.
  intros Hp. unfold view_opts.
  by rewrite (post_view_data _ _ _ _ _ _ _ _ _ Hp), (cp_optsref _ _ _ _ _ _ _ _ _ Hp).
Qed.

Lemma post_class ctrl component data opts (h : heap) m ld lo h' :
  create_post ctrl component data opts h m ld lo h' →
  class_of h' (VRef m) = Some ModalInst.
Proof. intros Hp. unfold class_of. by rewrite (cp_inst _ _ _ _ _ _ _ _ _ Hp). Qed.

Lemma flag_value_boolean x :
  flag_value x = VBool (if isPresent x then truthy x else true).
Proof. unfold flag_value. by destruct (isPresent x). Qed.

Lemma flag_value_idem x : flag_value (flag_value x) = flag_value x.
Proof. rewrite (flag_value_boolean x). by destruct (isPresent x), (truthy x). Qed.

Lemma live_true (h : heap) l : is_Some (h !! l) → live h (VRef l) = true.
Proof. intros Hl. by apply bool_decide_eq_true. Qed.

(** C4 (amended). [create] returns a new view instance [m] without
    calling the presenter.  Outside that instance its effects are confined
    to the data object [ld] and the options object [lo] it works on, which
    are the caller's own objects when objects were passed and new plain
    objects otherwise: it sets [component] and [opts] on [ld] (to the
    component passed and to [lo]) and sets the two flags on [lo] to their
    resolved values.  Every other object, every other property of those
    two, and the class of every object that existed are left as they
    were; the new instance has exactly the fields the constructor gives
    it. *)
Theorem create_footprint ctrl component data opts (h : heap) :
  data_arg h data = true → opts_arg h opts = true →
  ∃ m ld lo h',
    create ctrl component data opts h = Done (VRef m) h'
    ∧ h !! m = None
    ∧ class_of h' (VRef m) = Some ModalInst
    ∧ (∀ P : presenter,
         run P (create ctrl component data opts h) = (Ok (VRef m), h', []))
    ∧ (∀ l, is_Some (h !! l) → data ≠ VRef l → opts ≠ VRef l →
            h' !! l = h !! l)
    ∧ (∀ l n, is_Some (h !! l) →
              field h' (VRef l) n = field h (VRef l) n
              ∨ (data = VRef l ∧ (n = "component" ∨ n = "opts"))
              ∨ (opts = VRef l ∧ (n = "showBackdrop" ∨ n = "enableBackdropDismiss")))
    ∧ (∀ l, is_Some (h !! l) → class_of h' (VRef l) = class_of h (VRef l))
    ∧ h' !! m
      = Some (Obj ModalInst
                (modal_fields (_app ctrl) ld
                   (field h opts "enterAnimation")
                   (field h opts "leaveAnimation")))
    ∧ (if live h data then data = VRef ld
       else h !! ld = None ∧ class_of h' (VRef ld) = Some PlainObject)
    ∧ (if live h opts then opts = VRef lo
       else h !! lo = None ∧ class_of h' (VRef lo) = Some PlainObject)
    ∧ (∀ l, is_Some (h' !! l) ↔ is_Some (h !! l) ∨ l = m ∨ l = ld ∨ l = lo)
    ∧ field h' (VRef ld) "component" = component
    ∧ field h' (VRef ld) "opts" = VRef lo
    ∧ field h' (VRef lo) "showBackdrop"
      = flag_value (field h opts "showBackdrop")
    ∧ field h' (VRef lo) "enableBackdropDismiss"
      = flag_value (field h opts "enableBackdropDismiss")
    ∧ (∀ l n, l ≠ m →
              ¬ (l = ld ∧ (n = "component" ∨ n = "opts")) →
              ¬ (l = lo ∧ (n = "showBackdrop" ∨ n = "enableBackdropDismiss")) →
              field h' (VRef l) n = field h (VRef l) n)
    ∧ (∀ l, l ≠ m → l ≠ ld → l ≠ lo → h' !! l = h !! l).
Proof.
  intros Hd Ho.
  destruct (create_completes ctrl component data opts h Hd Ho)
    as (m & ld & lo & h' & Hc & Hp).
  assert (Hlm : ∀ l, is_Some (h !! l) → l ≠ m).
  { intros l Hl ->. rewrite (cp_new _ _ _ _ _ _ _ _ _ Hp) in Hl. by destruct Hl. }
  assert (Hdl : ∀ l, is_Some (h !! l) → l = ld → data = VRef l).
  { intros l Hl ->. destruct (cp_data _ _ _ _ _ _ _ _ _ Hp) as [[-> _]|[_ Hn]]; [done|].
    rewrite Hn in Hl. by destruct Hl. }
  assert (Hol : ∀ l, is_Some (h !! l) → l = lo → opts = VRef l).
  { intros l Hl ->. destruct (cp_opts _ _ _ _ _ _ _ _ _ Hp) as [[-> _]|[_ Hn]]; [done|].
    rewrite Hn in Hl. by destruct Hl. }
  exists m, ld, lo, h'. split_and!.
  - exact Hc.
  - by apply (cp_new _ _ _ _ _ _ _ _ _ Hp).
  - by apply (post_class _ _ _ _ _ _ _ _ _ Hp).
  - intros P. by rewrite Hc.
  - intros l Hl Hnd Hno. apply (cp_other _ _ _ _ _ _ _ _ _ Hp).
    + by apply Hlm.
    + intros Heq. by destruct Hnd; apply Hdl.
    + intros Heq. by destruct Hno; apply Hol.
  - intros l n Hl.
    destruct (decide (l = ld ∧ (n = "component" ∨ n = "opts"))) as [[Heq Hn]|Hnd].
    { right. left. split; [by apply Hdl|done]. }
    destruct (decide (l = lo ∧ (n = "showBackdrop" ∨ n = "enableBackdropDismiss")))
      as [[Heq Hn]|Hno].
    { right. right. split; [by apply Hol|done]. }
    left. apply (cp_exact _ _ _ _ _ _ _ _ _ Hp); [by apply Hlm|done|done].
  - intros l Hl. apply (cp_class _ _ _ _ _ _ _ _ _ Hp); [by apply Hlm|done].
  - by apply (cp_inst _ _ _ _ _ _ _ _ _ Hp).
  - destruct (cp_data _ _ _ _ _ _ _ _ _ Hp) as [[-> Hl]|[Hf Hn]].
    + by rewrite (live_true h ld Hl).
    + assert (live h data = false) as ->.
      { destruct (live h data) eqn:Hlv; [|done].
        apply live_ref in Hlv as (l & -> & _). done. }
      split; [done|]. by apply (cp_new_data _ _ _ _ _ _ _ _ _ Hp).
  - destruct (cp_opts _ _ _ _ _ _ _ _ _ Hp) as [[-> Hl]|[-> Hn]].
    + by rewrite (live_true h lo Hl).
    + split; [done|]. by apply (cp_new_opts _ _ _ _ _ _ _ _ _ Hp).
  - by apply (cp_live _ _ _ _ _ _ _ _ _ Hp).
  - by apply (cp_component _ _ _ _ _ _ _ _ _ Hp).
  - by apply (cp_optsref _ _ _ _ _ _ _ _ _ Hp).
  - by apply (cp_showBackdrop _ _ _ _ _ _ _ _ _ Hp).
  - by apply (cp_enableBackdropDismiss _ _ _ _ _ _ _ _ _ Hp).
  - by apply (cp_exact _ _ _ _ _ _ _ _ _ Hp).
  - by apply (cp_other _ _ _ _ _ _ _ _ _ Hp).
Qed.

Lemma create_footprint_witness :
  ∃ m ld lo h',
    create sample_ctrl (VFun "CompA") (VRef 4) (VRef 2) sample_heap = Done (VRef m) h'
    ∧ sample_heap !! m = None
    ∧ class_of h' (VRef m) = Some ModalInst
    ∧ (∀ P : presenter,
         run P (create sample_ctrl (VFun "CompA") (VRef 4) (VRef 2) sample_heap) = (Ok (VRef m), h', []))
    ∧ (∀ l, is_Some (sample_heap !! l) → (VRef 4) ≠ VRef l → (VRef 2) ≠ VRef l →
            h' !! l = sample_heap !! l)
    ∧ (∀ l n, is_Some (sample_heap !! l) →
              field h' (VRef l) n = field sample_heap (VRef l) n
              ∨ ((VRef 4) = VRef l ∧ (n = "component" ∨ n = "opts"))
              ∨ ((VRef 2) = VRef l ∧ (n = "showBackdrop" ∨ n = "enableBackdropDismiss")))
    ∧ (∀ l, is_Some (sample_heap !! l) → class_of h' (VRef l) = class_of sample_heap (VRef l))
    ∧ h' !! m
      = Some (Obj ModalInst
                (modal_fields (_app sample_ctrl) ld
                   (field sample_heap (VRef 2) "enterAnimation")
                   (field sample_heap (VRef 2) "leaveAnimation")))
    ∧ (if live sample_heap (VRef 4) then (VRef 4) = VRef ld
       else sample_heap !! ld = None ∧ class_of h' (VRef ld) = Some PlainObject)
    ∧ (if live sample_heap (VRef 2) then (VRef 2) = VRef lo
       else sample_heap !! lo = None ∧ class_of h' (VRef lo) = Some PlainObject)
    ∧ (∀ l, is_Some (h' !! l) ↔ is_Some (sample_heap !! l) ∨ l = m ∨ l = ld ∨ l = lo)
    ∧ field h' (VRef ld) "component" = (VFun "CompA")
    ∧ field h' (VRef ld) "opts" = VRef lo
    ∧ field h' (VRef lo) "showBackdrop"
      = flag_value (field sample_heap (VRef 2) "showBackdrop")
    ∧ field h' (VRef lo) "enableBackdropDismiss"
      = flag_value (field sample_heap (VRef 2) "enableBackdropDismiss")
    ∧ (∀ l n, l ≠ m →
              ¬ (l = ld ∧ (n = "component" ∨ n = "opts")) →
              ¬ (l = lo ∧ (n = "showBackdrop" ∨ n = "enableBackdropDismiss")) →
              field h' (VRef l) n = field sample_heap (VRef l) n)
    ∧ (∀ l, l ≠ m → l ≠ ld → l ≠ lo → h' !! l = sample_heap !! l).
Proof.
  apply (create_footprint sample_ctrl (VFun "CompA") (VRef 4) (VRef 2) sample_heap);
    reflexivity.
Defined.

(** X1. The two resolved flags of a created instance are always
    booleans: a flag the caller passed (anything but [undefined] or
    [null]) is coerced to its truthiness, whatever its type. *)
Theorem create_flags_are_booleans ctrl component data opts (h : heap) :
  data_arg h data = true → opts_arg h opts = true →
  ∃ m h' b1 b2,
    create ctrl component data opts h = Done m h'
    ∧ field h' (view_opts h' m) "showBackdrop" = VBool b1
    ∧ field h' (view_opts h' m) "enableBackdropDismiss" = VBool b2
    ∧ (isPresent (field h opts "showBackdrop") = true →
       b1 = truthy (field h opts "showBackdrop"))
    ∧ (isPresent (field h opts "enableBackdropDismiss") = true →
       b2 = truthy (field h opts "enableBackdropDismiss")).
Proof.
  intros Hd Ho.
  destruct (create_resolved ctrl component data opts h Hd Ho)
    as (m & h' & Hc & Hs & He).
  rewrite flag_value_boolean in Hs, He.
  eexists m, h', _, _. split_and!; [exact Hc|exact Hs|exact He|..].
  - by intros ->.
  - by intros ->.
Qed.

Lemma create_flags_are_booleans_witness :
  ∃ m h' b1 b2,
    create sample_ctrl (VFun "CompA") (VRef 4) (VRef 3) sample_heap = Done m h'
    ∧ field h' (view_opts h' m) "showBackdrop" = VBool b1
    ∧ field h' (view_opts h' m) "enableBackdropDismiss" = VBool b2
    ∧ (isPresent (field sample_heap (VRef 3) "showBackdrop") = true →
       b1 = truthy (field sample_heap (VRef 3) "showBackdrop"))
    ∧ (isPresent (field sample_heap (VRef 3) "enableBackdropDismiss") = true →
       b2 = truthy (field sample_heap (VRef 3) "enableBackdropDismiss")).
Proof.
  apply (create_flags_are_booleans sample_ctrl (VFun "CompA") (VRef 4) (VRef 3)
           sample_heap); reflexivity.
Defined.

(** X2. An options object resolved by one [create] can be passed to
    another: the second call writes the same two flags back, and both
    instances hold that one object. *)
Theorem create_again_keeps_resolved_flags ctrl component data lo (h : heap) :
  data_arg h data = true → is_Some (h !! lo) →
  ∃ m1 h1,
    create ctrl component data (VRef lo) h = Done m1 h1
    ∧ view_opts h1 m1 = VRef lo
    ∧ ∀ ctrl2 component2 data2,
        data_arg h1 data2 = true →
        ∃ m2 h2,
          create ctrl2 component2 data2 (VRef lo) h1 = Done m2 h2
          ∧ view_opts h2 m2 = VRef lo
          ∧ field h2 (VRef lo) "showBackdrop" = field h1 (VRef lo) "showBackdrop"
          ∧ field h2 (VRef lo) "enableBackdropDismiss"
            = field h1 (VRef lo) "enableBackdropDismiss".
Proof.
  intros Hd Hlo.
  assert (Ho : opts_arg h (VRef lo) = true).
  { unfold opts_arg. by rewrite (live_true h lo Hlo), orb_true_r. }
  destruct (create_completes ctrl component data (VRef lo) h Hd Ho)
    as (m1 & ld1 & lo1 & h1 & Hc1 & Hp1).
  assert (lo1 = lo) as ->.
  { by destruct (cp_opts _ _ _ _ _ _ _ _ _ Hp1) as [[[= ->] _]|[[=] _]]. }
  exists (VRef m1), h1. split; [done|].
  split; [by apply (post_view_opts _ _ _ _ _ _ _ _ _ Hp1)|].
  intros ctrl2 component2 data2 Hd2.
  assert (Hlo1 : is_Some (h1 !! lo)).
  { apply (cp_live _ _ _ _ _ _ _ _ _ Hp1). auto. }
  assert (Ho2 : opts_arg h1 (VRef lo) = true).
  { unfold opts_arg. by rewrite (live_true h1 lo Hlo1), orb_true_r. }
  destruct (create_completes ctrl2 component2 data2 (VRef lo) h1 Hd2 Ho2)
    as (m2 & ld2 & lo2 & h2 & Hc2 & Hp2).
  assert (lo2 = lo) as ->.
  { by destruct (cp_opts _ _ _ _ _ _ _ _ _ Hp2) as [[[= ->] _]|[[=] _]]. }
  exists (VRef m2), h2. split; [done|].
  split; [by apply (post_view_opts _ _ _ _ _ _ _ _ _ Hp2)|].
  rewrite (cp_showBackdrop _ _ _ _ _ _ _ _ _ Hp2).
  rewrite (cp_enableBackdropDismiss _ _ _ _ _ _ _ _ _ Hp2).
  rewrite (cp_showBackdrop _ _ _ _ _ _ _ _ _ Hp1).
  rewrite (cp_enableBackdropDismiss _ _ _ _ _ _ _ _ _ Hp1).
  by rewrite !flag_value_idem.
Qed.

Lemma create_again_keeps_resolved_flags_witness :
  ∃ m1 h1,
    create sample_ctrl (VFun "CompA") VUndef (VRef 2) sample_heap = Done m1 h1
    ∧ view_opts h1 m1 = VRef 2
    ∧ ∀ ctrl2 component2 data2,
        data_arg h1 data2 = true →
        ∃ m2 h2,
          create ctrl2 component2 data2 (VRef 2) h1 = Done m2 h2
          ∧ view_opts h2 m2 = VRef 2
          ∧ field h2 (VRef 2) "showBackdrop" = field h1 (VRef 2) "showBackdrop"
          ∧ field h2 (VRef 2) "enableBackdropDismiss"
            = field h1 (VRef 2) "enableBackdropDismiss".
Proof.
  apply (create_again_keeps_resolved_flags sample_ctrl (VFun "CompA") VUndef
           2%positive sample_heap); [reflexivity|vm_compute; eauto].
Defined.

(** X3. The instance [create] returns is a [Modal] whose own component
    is the wrapper [ModalCmp] (the caller's component is kept under
    [data.component]), which is flagged as an overlay, holds the
    controller's [App] and the two animation names exactly as they were
    passed, and is not attached to any navigation stack. *)
Theorem create_instance_fields ctrl component data opts (h : heap) :
  data_arg h data = true → opts_arg h opts = true →
  ∃ m h',
    create ctrl component data opts h = Done m h'
    ∧ class_of h' m = Some ModalInst
    ∧ field h' m "component" = ModalCmp
    ∧ field h' (view_data h' m) "component" = component
    ∧ field h' m "isOverlay" = VBool true
    ∧ field h' m "_app" = _app ctrl
    ∧ field h' m "_enterAnimation" = field h opts "enterAnimation"
    ∧ field h' m "_leaveAnimation" = field h opts "leaveAnimation"
    ∧ field h' m "_nav" = VUndef.
Proof.
  intros Hd Ho.
  destruct (create_completes ctrl component data opts h Hd Ho)
    as (m & ld & lo & h' & Hc & Hp).
  exists (VRef m), h'. split; [done|].
  rewrite (post_view_data _ _ _ _ _ _ _ _ _ Hp).
  rewrite !(post_field _ _ _ _ _ _ _ _ _ _ Hp).
  split_and!; try reflexivity.
  - by apply (post_class _ _ _ _ _ _ _ _ _ Hp).
  - by apply (cp_component _ _ _ _ _ _ _ _ _ Hp).
Qed.

Lemma create_instance_fields_witness :
  ∃ m h',
    create sample_ctrl (VFun "CompA") (VRef 4) (VRef 2) sample_heap = Done m h'
    ∧ class_of h' m = Some ModalInst
    ∧ field h' m "component" = ModalCmp
    ∧ field h' (view_data h' m) "component" = VFun "CompA"
    ∧ field h' m "isOverlay" = VBool true
    ∧ field h' m "_app" = _app sample_ctrl
    ∧ field h' m "_enterAnimation" = field sample_heap (VRef 2) "enterAnimation"
    ∧ field h' m "_leaveAnimation" = field sample_heap (VRef 2) "leaveAnimation"
    ∧ field h' m "_nav" = VUndef.
Proof.
  apply (create_instance_fields sample_ctrl (VFun "CompA") (VRef 4) (VRef 2)
           sample_heap); reflexivity.
Defined.

(** X4. The instance holds the caller's own [data] and [opts] objects,
    not copies of them; an argument that was not an object is replaced by
    an object that did not exist before the call. *)
Theorem create_holds_callers_objects ctrl component data opts (h : heap) :
  data_arg h data = true → opts_arg h opts = true →
  ∃ m h',
    create ctrl component data opts h = Done m h'
    ∧ (live h data = true → view_data h' m = data)
    ∧ (live h opts = true → view_opts h' m = opts)
    ∧ (live h data = false →
       live h (view_data h' m) = false ∧ live h' (view_data h' m) = true)
    ∧ (live h opts = false →
       live h (view_opts h' m) = false ∧ live h' (view_opts h' m) = true).
Proof.
  intros Hd Ho.
  destruct (create_completes ctrl component data opts h Hd Ho)
    as (m & ld & lo & h' & Hc & Hp).
  exists (VRef m), h'. split; [done|].
  rewrite (post_view_data _ _ _ _ _ _ _ _ _ Hp), (post_view_opts _ _ _ _ _ _ _ _ _ Hp).
  assert (Hld' : live h' (VRef ld) = true).
  { apply live_true, (cp_live _ _ _ _ _ _ _ _ _ Hp). auto. }
  assert (Hlo' : live h' (VRef lo) = true).
  { apply live_true, (cp_live _ _ _ _ _ _ _ _ _ Hp). auto. }
  destruct (cp_data _ _ _ _ _ _ _ _ _ Hp) as [[-> Hl]|[Hf Hn]];
    destruct (cp_opts _ _ _ _ _ _ _ _ _ Hp) as [[-> Hl2]|[-> Hn2]];
    split_and!; try done;
    try (rewrite live_true by done; done);
    try (intros _; split; [|done]; simpl; rewrite bool_decide_eq_false;
         rewrite ?Hn, ?Hn2; by intros []).
  - intros (l & -> & Hl)%live_ref. done.
  - intros (l & -> & Hl)%live_ref. done.
Qed.

Lemma create_holds_callers_objects_witness :
  ∃ m h',
    create sample_ctrl (VFun "CompA") (VRef 4) VUndef sample_heap = Done m h'
    ∧ (live sample_heap (VRef 4) = true → view_data h' m = VRef 4)
    ∧ (live sample_heap VUndef = true → view_opts h' m = VUndef)
    ∧ (live sample_heap (VRef 4) = false →
       live sample_heap (view_data h' m) = false ∧ live h' (view_data h' m) = true)
    ∧ (live sample_heap VUndef = false →
       live sample_heap (view_opts h' m) = false ∧ live h' (view_opts h' m) = true).
Proof.
  apply (create_holds_callers_objects sample_ctrl (VFun "CompA") (VRef 4) VUndef
           sample_heap); reflexivity.
Defined.

(** X5. On a newly created instance, [getTransitionName] gives back the
    animation name passed in the options (the leave animation for
    ['back'], the enter animation otherwise) when that is truthy, and
    [undefined] otherwise: the instance has no navigation stack to ask. *)
Theorem created_transition_name ctrl component data opts (h : heap) :
  data_arg h data = true → opts_arg h opts = true →
  ∃ m h',
    create ctrl component data opts h = Done m h'
    ∧ ∀ d,
        let passed :=
          field h opts (if String.eqb d "back" then "leaveAnimation"
                        else "enterAnimation") in
        getTransitionName m d h'
        = Done (if truthy passed then passed else VUndef) h'.
Proof.
  intros Hd Ho.
  destruct (create_completes ctrl component data opts h Hd Ho)
    as (m & ld & lo & h' & Hc & Hp).
  exists (VRef m), h'. split; [done|]. intros d passed.
  assert (Hm : is_Some (h' !! m)) by (by rewrite (cp_inst _ _ _ _ _ _ _ _ _ Hp)).
  assert (Hnav : ∀ key, nav_config_get (VRef m) key h' = Done VUndef h').
  { intros key.
    destruct (nav_config_get_spec h' (VRef m) key) as [Hfalsy _].
    - by rewrite (post_class _ _ _ _ _ _ _ _ _ Hp).
    - rewrite (post_field _ _ _ _ _ _ _ _ _ _ Hp) in Hfalsy. by apply Hfalsy. }
  unfold getTransitionName, passed. destruct (String.eqb d "back").
  - rewrite (bind_Done _ _ _ _ _ (getprop_live _ _ _ Hm)).
    rewrite (post_field _ _ _ _ _ _ _ _ _ _ Hp).
    change (default VUndef (modal_fields _ _ _ _ !! "_leaveAnimation"))
      with (field h opts "leaveAnimation").
    destruct (truthy (field h opts "leaveAnimation")); [done|apply Hnav].
  - rewrite (bind_Done _ _ _ _ _ (getprop_live _ _ _ Hm)).
    rewrite (post_field _ _ _ _ _ _ _ _ _ _ Hp).
    change (default VUndef (modal_fields _ _ _ _ !! "_enterAnimation"))
      with (field h opts "enterAnimation").
    destruct (truthy (field h opts "enterAnimation")); [done|apply Hnav].
Qed.

Lemma created_transition_name_witness :
  ∃ m h',
    create sample_ctrl (VFun "CompA") VUndef (VRef 2) sample_heap = Done m h'
    ∧ ∀ d,
        let passed :=
          field sample_heap (VRef 2)
            (if String.eqb d "back" then "leaveAnimation" else "enterAnimation") in
        getTransitionName m d h'
        = Done (if truthy passed then passed else VUndef) h'.
Proof.
  apply (created_transition_name sample_ctrl (VFun "CompA") VUndef (VRef 2)
           sample_heap); reflexivity.
Defined.

(** X6. [create(...).present(n)] of a controller that holds an [App]
    asks that [App], exactly once, to present the instance just created
    as a [MODAL], and gives back its answer. *)
Theorem create_then_present ctrl component data opts (h : heap) :
  data_arg h data = true → opts_arg h opts = true →
  class_of h (_app ctrl) = Some AppInst →
  ∃ m h',
    create ctrl component data opts h = Done m h'
    ∧ ∀ (P : presenter) (n : val),
        let c := AppPresent (_app ctrl) m (passed_options h' n).1 MODAL in
        run P (present m n h')
        = ((P c (passed_options h' n).2).1, (P c (passed_options h' n).2).2, [c]).
Proof.
  intros Hd Ho Ha.
  destruct (create_completes ctrl component data opts h Hd Ho)
    as (m & ld & lo & h' & Hc & Hp).
  exists (VRef m), h'. split; [done|]. intros P n c.
  assert (Happ : field h' (VRef m) "_app" = _app ctrl)
    by (by rewrite (post_field _ _ _ _ _ _ _ _ _ _ Hp)).
  assert (Hpres : presentable h' (VRef m) = true).
  { unfold presentable. rewrite Happ.
    rewrite (post_class _ _ _ _ _ _ _ _ _ Hp), bool_decide_true by done.
    apply bool_decide_eq_true.
    destruct (class_of_Some_live _ _ _ Ha) as (la & Hla & Hlive).
    rewrite Hla in *. rewrite (cp_class _ _ _ _ _ _ _ _ _ Hp); [done| |done].
    intros ->. rewrite (cp_new _ _ _ _ _ _ _ _ _ Hp) in Hlive. by destruct Hlive. }
  rewrite (run_present P h' (VRef m) n Hpres). unfold present_call.
  rewrite Happ. reflexivity.
Qed.

Lemma create_then_present_witness :
  ∃ m h',
    create sample_ctrl (VFun "CompA") (VRef 4) VUndef sample_heap = Done m h'
    ∧ ∀ (P : presenter) (n : val),
        let c := AppPresent (_app sample_ctrl) m (passed_options h' n).1 MODAL in
        run P (present m n h')
        = ((P c (passed_options h' n).2).1, (P c (passed_options h' n).2).2, [c]).
Proof.
  apply (create_then_present sample_ctrl (VFun "CompA") (VRef 4) VUndef
           sample_heap); reflexivity.
Defined.

Lemma Modal_new_null_opts app component ld (h : heap) :
  is_Some (h !! ld) →
  Modal_new app component (VRef ld) VNull h
  = Threw TypeError (upd ld "component" component h).
Proof.
  intros Hl. unfold Modal_new. simpl default_object. simpl truthy. cbv beta iota.
  erewrite bind_Done; [|reflexivity].
  erewrite bind_Done; [|reflexivity].
  erewrite bind_Done; [|by apply setprop_live].
  reflexivity.
Qed.

Lemma create_null_opts_new_data ctrl component data (h : heap) :
  truthy data = false →
  create ctrl component data VNull h
  = Modal_new (_app ctrl) component (VRef (fresh (dom h))) VNull
      (<[fresh (dom h) := Obj PlainObject ∅]> h).
Proof.
  intros Hf. destruct (decide (data = VUndef)) as [->|Hu]; [reflexivity|].
  unfold create. rewrite (default_object_given data) by done.
  erewrite bind_Done; [|reflexivity].
  erewrite bind_Done; [|reflexivity].
  unfold Modal_new. simpl default_object. by rewrite Hf.
Qed.

(** X7. [create] with [null] for the options throws a [TypeError] (the
    default [{}] only replaces [undefined]) without calling the presenter,
    but only after [component] has been written on the caller's data
    object; nothing else that existed is changed. *)
Theorem create_null_opts_throws ctrl component data (h : heap) :
  data_arg h data = true →
  ∃ h',
    create ctrl component data VNull h = Threw TypeError h'
    ∧ (∀ P : presenter,
         run P (create ctrl component data VNull h) = (Err TypeError, h', []))
    ∧ (live h data = true →
       field h' data "component" = component
       ∧ ∀ n, n ≠ "component" → field h' data n = field h data n)
    ∧ (∀ l, is_Some (h !! l) → data ≠ VRef l → h' !! l = h !! l).
Proof.
  unfold data_arg. intros [Hf%negb_true_iff|Hl]%orb_true_iff.
  - rewrite (create_null_opts_new_data ctrl component data h Hf).
    rewrite Modal_new_null_opts by (by rewrite lookup_insert_eq).
    eexists. split_and!; [reflexivity|done| |].
    + intros (l & -> & _)%live_ref. done.
    + intros l Hl _. rewrite upd_lookup.
      assert (fresh (dom h) ≠ l) by (by apply fresh_not_live).
      rewrite decide_False by done. by rewrite lookup_insert_ne.
  - apply live_ref in Hl as (ld & -> & Hl).
    assert (Hc : create ctrl component (VRef ld) VNull h
                 = Threw TypeError (upd ld "component" component h)).
    { rewrite <- (Modal_new_null_opts (_app ctrl)) by done. reflexivity. }
    rewrite Hc. eexists. split_and!; [reflexivity|done| |].
    + intros _. split; [by apply field_upd_eq|].
      intros n Hn. apply field_upd_ne. auto.
    + intros l _ Hne. rewrite upd_lookup. rewrite decide_False; [done|congruence].
Qed.

Lemma create_null_opts_throws_witness :
  ∃ h',
    create sample_ctrl (VFun "CompA") (VRef 4) VNull sample_heap = Threw TypeError h'
    ∧ (∀ P : presenter,
         run P (create sample_ctrl (VFun "CompA") (VRef 4) VNull sample_heap)
         = (Err TypeError, h', []))
    ∧ (live sample_heap (VRef 4) = true →
       field h' (VRef 4) "component" = VFun "CompA"
       ∧ ∀ n, n ≠ "component" → field h' (VRef 4) n = field sample_heap (VRef 4) n)
    ∧ (∀ l, is_Some (sample_heap !! l) → VRef 4 ≠ VRef l → h' !! l = sample_heap !! l).
Proof.
  apply (create_null_opts_throws sample_ctrl (VFun "CompA") (VRef 4) sample_heap).
  reflexivity.
Defined.

(** X8. [create] with a truthy primitive (a number, a non-empty string,
    [true]) for the data throws a [TypeError] at the first write to it, in
    the strict-mode code of the class, and changes no object that existed. *)
Theorem create_primitive_data_throws ctrl component data opts (h : heap) :
  primitive data = true → truthy data = true → opts_arg h opts = true →
  ∃ h',
    create ctrl component data opts h = Threw TypeError h'
    ∧ ∀ l, is_Some (h !! l) → h' !! l = h !! l.
Proof.
  intros Hp Ht Ho.
  assert (Hu : data ≠ VUndef) by (by intros ->).
  assert (Hset : ∀ h1, setprop data "component" component h1 = Threw TypeError h1).
  { intros h1. by destruct data. }
  assert (Hnew : ∀ lo h1,
            Modal_new (_app ctrl) component data (VRef lo) h1 = Threw TypeError h1).
  { intros lo h1. unfold Modal_new. simpl default_object. rewrite Ht.
    erewrite bind_Done; [|reflexivity].
    erewrite bind_Done; [|reflexivity].
    by erewrite bind_Threw. }
  unfold create. rewrite (default_object_given data) by done.
  erewrite bind_Done; [|reflexivity].
  unfold opts_arg in Ho.
  apply orb_true_iff in Ho as [->%bool_decide_eq_true|(lo & -> & Hlo)%live_ref].
  - erewrite bind_Done; [|apply alloc_fresh]. rewrite Hnew.
    eexists. split; [reflexivity|].
    intros l Hl. rewrite lookup_insert_ne; [done|]. by apply fresh_not_live.
  - erewrite bind_Done; [|reflexivity]. rewrite Hnew. by eexists.
Qed.

Lemma create_primitive_data_throws_witness :
  ∃ h',
    create sample_ctrl (VFun "CompA") (VNum 5) VUndef sample_heap = Threw TypeError h'
    ∧ ∀ l, is_Some (sample_heap !! l) → h' !! l = sample_heap !! l.
Proof.
  apply (create_primitive_data_throws sample_ctrl (VFun "CompA") (VNum 5) VUndef
           sample_heap); reflexivity.
Defined.

(** X9. [present] on a modal whose [_app] is no object (the controller
    was given [undefined], [null] or a primitive for its [App]) throws a
    [TypeError] and never reaches a presenter; the default navigation
    options have been evaluated by then. *)
Theorem present_without_app_throws (h : heap) (m n : val) :
  class_of h m = Some ModalInst →
  not_an_object (field h m "_app") = true →
  present m n h = Threw TypeError (passed_options h n).2
  ∧ ∀ P : presenter,
      run P (present m n h) = (Err TypeError, (passed_options h n).2, []).
Proof.
  intros Hm Hna.
  destruct (class_of_Some_live _ _ _ Hm) as (l & -> & Hl).
  assert (Hp : present (VRef l) n h = Threw TypeError (passed_options h n).2).
  { unfold present.
    rewrite (bind_Done _ _ _ _ _ (default_object_passed h n)).
    pose proof (passed_options_old h n l Hl) as Hsame.
    erewrite bind_Done; [|apply getprop_live; by rewrite Hsame].
    assert (Hf : field (passed_options h n).2 (VRef l) "_app" = field h (VRef l) "_app")
      by (unfold field; by rewrite Hsame).
    rewrite Hf. unfold App_present.
    by destruct (field h (VRef l) "_app"). }
  split; [done|]. intros P. by rewrite Hp.
Qed.

Lemma present_without_app_throws_witness :
  present (VRef 7) VUndef appless_heap
  = Threw TypeError (passed_options appless_heap VUndef).2
  ∧ ∀ P : presenter,
      run P (present (VRef 7) VUndef appless_heap)
      = (Err TypeError, (passed_options appless_heap VUndef).2, []).
Proof.
  apply (present_without_app_throws appless_heap (VRef 7) VUndef); reflexivity.
Defined.

Lemma post_opts_identity ctrl component data opts (h : heap) m ld lo h' :
  create_post ctrl component data opts h m ld lo h' →
  if live h opts then opts = VRef lo else h !! lo = None.
Proof.
  intros Hp. destruct (cp_opts _ _ _ _ _ _ _ _ _ Hp) as [[-> Hl]|[-> Hn]].
  - by rewrite (live_true h lo Hl).
  - done.
Qed.

(** X10. One data object passed to two [create] calls is shared by both
    instances: after the second call the data object carries the second
    component and, under ['opts'], the options object of the second call
    (the caller's, or a new one when omitted, with its flags resolved), and
    that is what the first instance, too, now has for its options. *)
Theorem create_shared_data_overwritten ctrl component1 ld opts1 (h : heap) :
  is_Some (h !! ld) → opts_arg h opts1 = true →
  ∃ m1 lo1 h1,
    create ctrl component1 (VRef ld) opts1 h = Done m1 h1
    ∧ view_data h1 m1 = VRef ld
    ∧ field h1 (VRef ld) "component" = component1
    ∧ view_opts h1 m1 = VRef lo1
    ∧ (if live h opts1 then opts1 = VRef lo1 else h !! lo1 = None)
    ∧ ∀ ctrl2 component2 opts2,
        opts_arg h1 opts2 = true →
        ∃ m2 lo2 h2,
          create ctrl2 component2 (VRef ld) opts2 h1 = Done m2 h2
          ∧ m2 ≠ m1
          ∧ view_data h2 m1 = VRef ld
          ∧ view_data h2 m2 = VRef ld
          ∧ field h2 (VRef ld) "component" = component2
          ∧ field h2 (VRef ld) "opts" = VRef lo2
          ∧ view_opts h2 m1 = VRef lo2
          ∧ view_opts h2 m2 = VRef lo2
          ∧ (if live h1 opts2 then opts2 = VRef lo2 else h1 !! lo2 = None)
          ∧ field h2 (VRef lo2) "showBackdrop"
            = flag_value (field h1 opts2 "showBackdrop")
          ∧ field h2 (VRef lo2) "enableBackdropDismiss"
            = flag_value (field h1 opts2 "enableBackdropDismiss").
Proof.
  intros Hld Ho1.
  assert (Hd1 : data_arg h (VRef ld) = true).
  { unfold data_arg. by rewrite (live_true h ld Hld), orb_true_r. }
  destruct (create_completes ctrl component1 (VRef ld) opts1 h Hd1 Ho1)
    as (m1 & ld1 & lo1 & h1 & Hc1 & Hp1).
  assert (ld1 = ld) as ->.
  { by destruct (cp_data _ _ _ _ _ _ _ _ _ Hp1) as [[[= ->] _]|[[=] _]]. }
  exists (VRef m1), lo1, h1. split; [done|].
  split; [by apply (post_view_data _ _ _ _ _ _ _ _ _ Hp1)|].
  split; [by apply (cp_component _ _ _ _ _ _ _ _ _ Hp1)|].
  split; [by apply (post_view_opts _ _ _ _ _ _ _ _ _ Hp1)|].
  split; [by apply (post_opts_identity _ _ _ _ _ _ _ _ _ Hp1)|].
  intros ctrl2 component2 opts2 Ho2.
  assert (Hld1 : is_Some (h1 !! ld)) by (apply (cp_live _ _ _ _ _ _ _ _ _ Hp1); auto).
  assert (Hm1 : is_Some (h1 !! m1)) by (apply (cp_live _ _ _ _ _ _ _ _ _ Hp1); auto).
  assert (Hd2 : data_arg h1 (VRef ld) = true).
  { unfold data_arg. by rewrite (live_true h1 ld Hld1), orb_true_r. }
  destruct (create_completes ctrl2 component2 (VRef ld) opts2 h1 Hd2 Ho2)
    as (m2 & ld2 & lo2 & h2 & Hc2 & Hp2).
  assert (ld2 = ld) as ->.
  { by destruct (cp_data _ _ _ _ _ _ _ _ _ Hp2) as [[[= ->] _]|[[=] _]]. }
  assert (Hne : m1 ≠ m2).
  { intros ->. rewrite (cp_new _ _ _ _ _ _ _ _ _ Hp2) in Hm1. by destruct Hm1. }
  assert (Hvd : view_data h2 (VRef m1) = VRef ld).
  { unfold view_data. rewrite (cp_frame _ _ _ _ _ _ _ _ _ Hp2) by done.
    by apply (post_view_data _ _ _ _ _ _ _ _ _ Hp1). }
  exists (VRef m2), lo2, h2. split_and!.
  - done.
  - congruence.
  - done.
  - by apply (post_view_data _ _ _ _ _ _ _ _ _ Hp2).
  - by apply (cp_component _ _ _ _ _ _ _ _ _ Hp2).
  - by apply (cp_optsref _ _ _ _ _ _ _ _ _ Hp2).
  - unfold view_opts. rewrite Hvd. by apply (cp_optsref _ _ _ _ _ _ _ _ _ Hp2).
  - by apply (post_view_opts _ _ _ _ _ _ _ _ _ Hp2).
  - by apply (post_opts_identity _ _ _ _ _ _ _ _ _ Hp2).
  - by apply (cp_showBackdrop _ _ _ _ _ _ _ _ _ Hp2).
  - by apply (cp_enableBackdropDismiss _ _ _ _ _ _ _ _ _ Hp2).
Qed.

Lemma create_shared_data_overwritten_witness :
  ∃ m1 lo1 h1,
    create sample_ctrl (VFun "CompA") (VRef 4) VUndef sample_heap = Done m1 h1
    ∧ view_data h1 m1 = VRef 4
    ∧ field h1 (VRef 4) "component" = (VFun "CompA")
    ∧ view_opts h1 m1 = VRef lo1
    ∧ (if live sample_heap VUndef then VUndef = VRef lo1 else sample_heap !! lo1 = None)
    ∧ ∀ ctrl2 component2 opts2,
        opts_arg h1 opts2 = true →
        ∃ m2 lo2 h2,
          create ctrl2 component2 (VRef 4) opts2 h1 = Done m2 h2
          ∧ m2 ≠ m1
          ∧ view_data h2 m1 = VRef 4
          ∧ view_data h2 m2 = VRef 4
          ∧ field h2 (VRef 4) "component" = component2
          ∧ field h2 (VRef 4) "opts" = VRef lo2
          ∧ view_opts h2 m1 = VRef lo2
          ∧ view_opts h2 m2 = VRef lo2
          ∧ (if live h1 opts2 then opts2 = VRef lo2 else h1 !! lo2 = None)
          ∧ field h2 (VRef lo2) "showBackdrop"
            = flag_value (field h1 opts2 "showBackdrop")
          ∧ field h2 (VRef lo2) "enableBackdropDismiss"
            = flag_value (field h1 opts2 "enableBackdropDismiss").
Proof.
  apply (create_shared_data_overwritten sample_ctrl (VFun "CompA") 4%positive
           VUndef sample_heap); [vm_compute; eauto|reflexivity].
Defined.

(** X11. The defaults are made anew on every call: two [create] calls
    that omit data and options give two instances with different data
    objects and different options objects, and the second call leaves the
    first instance and its two objects as they were. *)
Theorem create_defaults_not_shared ctrl component1 (h : heap) :
  ∃ m1 h1,
    create ctrl component1 VUndef VUndef h = Done m1 h1
    ∧ ∀ ctrl2 component2,
        ∃ m2 h2,
          create ctrl2 component2 VUndef VUndef h1 = Done m2 h2
          ∧ m1 ≠ m2
          ∧ view_data h2 m1 ≠ view_data h2 m2
          ∧ view_opts h2 m1 ≠ view_opts h2 m2
          ∧ mapping h2 m1 = mapping h1 m1
          ∧ mapping h2 (view_data h2 m1) = mapping h1 (view_data h1 m1)
          ∧ mapping h2 (view_opts h2 m1) = mapping h1 (view_opts h1 m1).
Proof.
  destruct (create_completes ctrl component1 VUndef VUndef h eq_refl eq_refl)
    as (m1 & ld1 & lo1 & h1 & Hc1 & Hp1).
  exists (VRef m1), h1. split; [done|]. intros ctrl2 component2.
  destruct (create_completes ctrl2 component2 VUndef VUndef h1 eq_refl eq_refl)
    as (m2 & ld2 & lo2 & h2 & Hc2 & Hp2).
  exists (VRef m2), h2. split; [done|].
  assert (Hlive : ∀ l, l = m1 ∨ l = ld1 ∨ l = lo1 → is_Some (h1 !! l)).
  { intros l Hl. apply (cp_live _ _ _ _ _ _ _ _ _ Hp1). auto. }
  assert (Hfresh2 : h1 !! m2 = None ∧ h1 !! ld2 = None ∧ h1 !! lo2 = None).
  { split; [by apply (cp_new _ _ _ _ _ _ _ _ _ Hp2)|].
    destruct (cp_data _ _ _ _ _ _ _ _ _ Hp2) as [[[=] _]|[_ ?]].
    by destruct (cp_opts _ _ _ _ _ _ _ _ _ Hp2) as [[[=] _]|[_ ?]]. }
  destruct Hfresh2 as (Hm2 & Hld2 & Hlo2).
  assert (Hsame : ∀ l, l = m1 ∨ l = ld1 ∨ l = lo1 → h2 !! l = h1 !! l).
  { intros l Hl. pose proof (Hlive l Hl) as Hs.
    apply (cp_other _ _ _ _ _ _ _ _ _ Hp2); intros ->.
    - rewrite Hm2 in Hs. by destruct Hs.
    - rewrite Hld2 in Hs. by destruct Hs.
    - rewrite Hlo2 in Hs. by destruct Hs. }
  assert (Hvd1 : view_data h2 (VRef m1) = VRef ld1).
  { unfold view_data, field. rewrite Hsame by auto.
    apply (post_view_data _ _ _ _ _ _ _ _ _ Hp1). }
  assert (Hvo1 : view_opts h2 (VRef m1) = VRef lo1).
  { unfold view_opts. rewrite Hvd1. unfold field. rewrite Hsame by auto.
    apply (cp_optsref _ _ _ _ _ _ _ _ _ Hp1). }
  rewrite Hvd1, Hvo1.
  rewrite (post_view_data _ _ _ _ _ _ _ _ _ Hp2), (post_view_opts _ _ _ _ _ _ _ _ _ Hp2).
  rewrite (post_view_data _ _ _ _ _ _ _ _ _ Hp1), (post_view_opts _ _ _ _ _ _ _ _ _ Hp1).
  split_and!.
  - intros [= ->]. pose proof (Hlive m2 (or_introl eq_refl)) as Hs.
    rewrite Hm2 in Hs. by destruct Hs.
  - intros [= ->]. pose proof (Hlive ld2 (or_intror (or_introl eq_refl))) as Hs.
    rewrite Hld2 in Hs. by destruct Hs.
  - intros [= ->]. pose proof (Hlive lo2 (or_intror (or_intror eq_refl))) as Hs.
    rewrite Hlo2 in Hs. by destruct Hs.
  - unfold mapping. by rewrite Hsame by auto.
  - unfold mapping. by rewrite Hsame by auto.
  - unfold mapping. by rewrite Hsame by auto.
Qed.

(** X15. When one object is passed as both data and options, the
    instance's options record is its data record: that object receives the
    component, the two resolved flags and, under ['opts'], a reference to
    itself, and keeps its other properties. *)
Theorem create_same_object_for_data_and_opts ctrl component l (h : heap) :
  is_Some (h !! l) →
  ∃ m h',
    create ctrl component (VRef l) (VRef l) h = Done m h'
    ∧ view_data h' m = VRef l
    ∧ view_opts h' m = VRef l
    ∧ field h' (VRef l) "opts" = VRef l
    ∧ field h' (VRef l) "component" = component
    ∧ field h' (VRef l) "showBackdrop"
      = flag_value (field h (VRef l) "showBackdrop")
    ∧ field h' (VRef l) "enableBackdropDismiss"
      = flag_value (field h (VRef l) "enableBackdropDismiss")
    ∧ ∀ n, n ≠ "component" → n ≠ "opts" →
           n ≠ "showBackdrop" → n ≠ "enableBackdropDismiss" →
           field h' (VRef l) n = field h (VRef l) n.
Proof.
  intros Hl.
  assert (Hd : data_arg h (VRef l) = true).
  { unfold data_arg. by rewrite (live_true h l Hl), orb_true_r. }
  assert (Ho : opts_arg h (VRef l) = true).
  { unfold opts_arg. by rewrite (live_true h l Hl), orb_true_r. }
  destruct (create_completes ctrl component (VRef l) (VRef l) h Hd Ho)
    as (m & ld & lo & h' & Hc & Hp).
  assert (ld = l) as ->.
  { by destruct (cp_data _ _ _ _ _ _ _ _ _ Hp) as [[[= ->] _]|[[=] _]]. }
  assert (lo = l) as ->.
  { by destruct (cp_opts _ _ _ _ _ _ _ _ _ Hp) as [[[= ->] _]|[[=] _]]. }
  exists (VRef m), h'. split_and!.
  - done.
  - by apply (post_view_data _ _ _ _ _ _ _ _ _ Hp).
  - by apply (post_view_opts _ _ _ _ _ _ _ _ _ Hp).
  - by apply (cp_optsref _ _ _ _ _ _ _ _ _ Hp).
  - by apply (cp_component _ _ _ _ _ _ _ _ _ Hp).
  - by apply (cp_showBackdrop _ _ _ _ _ _ _ _ _ Hp).
  - by apply (cp_enableBackdropDismiss _ _ _ _ _ _ _ _ _ Hp).
  - intros n H1 H2 H3 H4. apply (cp_frame _ _ _ _ _ _ _ _ _ Hp); try done.
    intros ->. rewrite (cp_new _ _ _ _ _ _ _ _ _ Hp) in Hl. by destruct Hl.
Qed.

Lemma create_same_object_for_data_and_opts_witness :
  ∃ m h',
    create sample_ctrl (VFun "CompA") (VRef 4) (VRef 4) sample_heap = Done m h'
    ∧ view_data h' m = VRef 4
    ∧ view_opts h' m = VRef 4
    ∧ field h' (VRef 4) "opts" = VRef 4
    ∧ field h' (VRef 4) "component" = VFun "CompA"
    ∧ field h' (VRef 4) "showBackdrop"
      = flag_value (field sample_heap (VRef 4) "showBackdrop")
    ∧ field h' (VRef 4) "enableBackdropDismiss"
      = flag_value (field sample_heap (VRef 4) "enableBackdropDismiss")
    ∧ ∀ n, n ≠ "component" → n ≠ "opts" →
           n ≠ "showBackdrop" → n ≠ "enableBackdropDismiss" →
           field h' (VRef 4) n = field sample_heap (VRef 4) n.
Proof.
  apply (create_same_object_for_data_and_opts sample_ctrl (VFun "CompA")
           4%positive sample_heap). vm_compute. eauto.
Defined.

(** * Further properties of the label *)

Lemma Label_set_ids_snoc vs v l :
  Label_set_ids (vs ++ [v]) l = Label_set_id v (Label_set_ids vs l).
Proof. unfold Label_set_ids. by rewrite foldl_app. Qed.

Lemma last_truthy_snoc vs v d :
  last_truthy (vs ++ [v]) d = if truthy v then Some v else last_truthy vs d.
Proof. unfold last_truthy. by rewrite foldl_app. Qed.

(** X12. Assigning a falsy id (the empty string, [null], [undefined])
    after a truthy one changes what the [id] getter returns but leaves the
    element's [id] attribute at the earlier value. *)
Theorem Label_falsy_id_keeps_attribute (v w : val) (l : Label) :
  truthy v = true → truthy w = false →
  Label_id (Label_set_id w (Label_set_id v l)) = w
  ∧ element (Label_set_id w (Label_set_id v l)) !! "id" = Some v
  ∧ element (Label_set_id v l) !! "id" = Some v.
Proof.
  intros Hv Hw. unfold Label_id, Label_set_id. simpl. rewrite Hv, Hw.
  split_and!; [done|apply lookup_insert_eq|apply lookup_insert_eq].
Qed.

Lemma Label_falsy_id_keeps_attribute_witness :
  let l := Label_new VNull (VStr "") VNull VNull in
  Label_id (Label_set_id (VStr "") (Label_set_id (VStr "lbl-1") l)) = VStr ""
  ∧ element (Label_set_id (VStr "") (Label_set_id (VStr "lbl-1") l)) !! "id"
    = Some (VStr "lbl-1")
  ∧ element (Label_set_id (VStr "lbl-1") l) !! "id" = Some (VStr "lbl-1").
Proof.
  apply (Label_falsy_id_keeps_attribute (VStr "lbl-1") (VStr "")
           (Label_new VNull (VStr "") VNull VNull)); reflexivity.
Defined.

(** X13. After any run of assignments to [id], the getter returns the
    last value assigned, the element's [id] attribute is the last truthy
    value assigned (or what it was, when there was none), and the type and
    every other attribute of the element are as before. *)
Theorem Label_set_ids_result (vs : list val) (l : Label) :
  Label_id (Label_set_ids vs l) = List.last vs (Label_id l)
  ∧ element (Label_set_ids vs l) !! "id" = last_truthy vs (element l !! "id")
  ∧ type (Label_set_ids vs l) = type l
  ∧ ∀ k, k ≠ "id" → element (Label_set_ids vs l) !! k = element l !! k.
Proof.
  induction vs as [|v vs IH] using rev_ind; [done|].
  destruct IH as (IH1 & IH2 & IH3 & IH4).
  rewrite Label_set_ids_snoc, last_truthy_snoc, last_last.
  unfold Label_id, Label_set_id in *. simpl. split_and!.
  - done.
  - destruct (truthy v); [apply lookup_insert_eq|done].
  - done.
  - intros k Hk. destruct (truthy v); [|by apply IH4].
    rewrite lookup_insert_ne by done. by apply IH4.
Qed.

(** * Further properties of the registry *)

(** X14. Loading the modal module registers ['modal-slide-in'] and
    ['modal-slide-out'] with its two animation classes whatever was
    registered under these names before, leaves every other name as it
    was, and loading it again changes nothing. *)
Theorem modal_module_load_overrides (reg : gmap string val) :
  Animation_lookup "modal-slide-in" (modal_module_load reg) = Some (VFun "ModalSlideIn")
  ∧ Animation_lookup "modal-slide-out" (modal_module_load reg)
    = Some (VFun "ModalSlideOut")
  ∧ (∀ n, n ≠ "modal-slide-in" → n ≠ "modal-slide-out" →
          Animation_lookup n (modal_module_load reg) = Animation_lookup n reg)
  ∧ modal_module_load (modal_module_load reg) = modal_module_load reg.
Proof.
  unfold modal_module_load, Animation_lookup, Animation_register. split_and!.
  - by rewrite lookup_insert_ne, lookup_insert_eq.
  - by rewrite lookup_insert_eq.
  - intros n H1 H2. by rewrite !lookup_insert_ne.
  - apply map_eq. intros k.
    destruct (decide ("modal-slide-out" = k)) as [<-|?].
    + by rewrite !lookup_insert_eq.
    + rewrite !(lookup_insert_ne _ "modal-slide-out") by done.
      destruct (decide ("modal-slide-in" = k)) as [<-|?].
      * by rewrite !lookup_insert_eq.
      * by rewrite !lookup_insert_ne.
Qed.
